(** * Gym-Tracker backend: workout store, request validation and handlers

    A shallow embedding of the Go backend (packages [models], [store],
    [httpjson], [handlers] and the CORS wrapper of [main]) together with the
    properties of its specification.

    Conventions of the embedding.
    - A Go [string] is the list of its Unicode code points.  Every string the
      handlers validate comes out of [encoding/json], which only produces
      valid UTF-8, so nothing is lost; the byte-oriented operations used on
      the URL path ([strings.Trim], [strings.Split], [strconv.Atoi]) only look
      at ASCII characters.
    - A Go [int] is a 64-bit signed integer: a [Z] with the wrap-around of
      [++] written out ([wrapInt]).
    - [time.Time] is a clock reading in [Z]; [time.Now()] is an explicit
      argument [now] of every operation that reads the clock.
    - [float64] is Rocq's primitive binary64 [float].
    - The store's mutex makes each method atomic: a method is a function
      from the store before the call to the result and the store after it. *)

From Stdlib Require Import ZArith String Ascii List Floats DecimalString DecimalN Lia.
From stdpp Require Import base decidable option list gmap.

Open Scope Z_scope.

(** ** Go strings *)

Abbreviation rune := Z.
Abbreviation gostring := (list Z).

(** A string literal of the source. *)
Definition lit (s : string) : gostring :=
  map (fun a => Z.of_N (N_of_ascii a)) (list_ascii_of_string s).

Arguments lit : simpl never.

(** [a == b] on Go strings. *)
Definition streq (a b : gostring) : bool := bool_decide (a = b).

(** [unicode.IsSpace]: the Latin-1 cases and the White_Space table. *)
Definition isSpace (r : rune) : bool :=
  (9 <=? r) && (r <=? 13)
  || (r =? 32) || (r =? 133) || (r =? 160)
  || (r =? 5760)
  || (8192 <=? r) && (r <=? 8202)
  || (r =? 8232) || (r =? 8233) || (r =? 8239) || (r =? 8287) || (r =? 12288).

(** [strings.TrimLeftFunc(s, f)]: drop the leading characters satisfying [f]. *)
Fixpoint TrimLeftFunc (f : rune -> bool) (s : gostring) : gostring :=
  match s with
  | [] => []
  | c :: s' => if f c then TrimLeftFunc f s' else s
  end.

(** [strings.TrimRightFunc(s, f)]: drop the trailing characters satisfying [f]. *)
Definition TrimRightFunc (f : rune -> bool) (s : gostring) : gostring :=
  rev (TrimLeftFunc f (rev s)).

(** [strings.TrimFunc(s, f)]. *)
Definition TrimFunc (f : rune -> bool) (s : gostring) : gostring :=
  TrimRightFunc f (TrimLeftFunc f s).

(** [strings.TrimSpace]. *)
Definition TrimSpace (s : gostring) : gostring := TrimFunc isSpace s.

(** [strings.Trim(s, "/")]. *)
Definition TrimSlash (s : gostring) : gostring := TrimFunc (fun c => c =? 47) s.

(** [strings.Split(s, "/")]: never empty, [Split("", "/")] is [[""]]. *)
Fixpoint SplitSlash (s : gostring) : list gostring :=
  match s with
  | [] => [[]]
  | c :: s' =>
      if c =? 47 then [] :: SplitSlash s'
      else match SplitSlash s' with
           | p :: ps => (c :: p) :: ps
           | [] => [[c]]
           end
  end.

(** [strconv.Itoa]. *)
Definition Itoa (i : Z) : gostring :=
  if i <? 0
  then lit "-" ++ lit (NilZero.string_of_uint (N.to_uint (Z.abs_N i)))
  else lit (NilZero.string_of_uint (N.to_uint (Z.abs_N i))).

(** ** Go [int] *)

Definition maxInt : Z := 9223372036854775807.
Definition minInt : Z := -9223372036854775808.

(** The value a 64-bit signed integer holds after an arithmetic result [z]. *)
Definition wrapInt (z : Z) : Z := (z - minInt) mod 18446744073709551616 + minInt.

(** ** [time.Parse("2006-01-02", value)]

    The layout has three fields: a four-digit year, a two-digit month and a
    two-digit day, separated by ["-"]; nothing may follow the day. *)

Definition isDigit (r : rune) : bool := (48 <=? r) && (r <=? 57).

Definition digitVal (r : rune) : Z := r - 48.

(** [getnum(s, true)]: exactly two leading digits. *)
Definition getnum2 (s : gostring) : option (Z * gostring) :=
  match s with
  | a :: b :: rest =>
      if isDigit a && isDigit b then Some (digitVal a * 10 + digitVal b, rest)
      else None
  | _ => None
  end.

(** The [stdLongYear] case: four leading digits. *)
Definition getyear (s : gostring) : option (Z * gostring) :=
  match s with
  | a :: b :: c :: d :: rest =>
      if isDigit a && isDigit b && isDigit c && isDigit d
      then Some (((digitVal a * 10 + digitVal b) * 10 + digitVal c) * 10 + digitVal d, rest)
      else None
  | _ => None
  end.

(** [skip(value, "-")]. *)
Definition skipDash (s : gostring) : option gostring :=
  match s with
  | c :: rest => if c =? 45 then Some rest else None
  | [] => None
  end.

Definition isLeap (year : Z) : bool :=
  (year mod 4 =? 0) && (negb (year mod 100 =? 0) || (year mod 400 =? 0)).

Definition daysIn (month year : Z) : Z :=
  if month =? 2 then (if isLeap year then 29 else 28)
  else if (month =? 4) || (month =? 6) || (month =? 9) || (month =? 11) then 30
  else 31.

(** The parsed (year, month, day), or [None] where [time.Parse] returns an
    error. *)
Definition parseDate (value : gostring) : option (Z * Z * Z) :=
  match getyear value with
  | None => None
  | Some (year, v1) =>
    match skipDash v1 with
    | None => None
    | Some v2 =>
      match getnum2 v2 with
      | None => None
      | Some (month, v3) =>
        if (month <=? 0) || (12 <? month) then None else
        match skipDash v3 with
        | None => None
        | Some v4 =>
          match getnum2 v4 with
          | None => None
          | Some (day, v5) =>
            match v5 with
            | _ :: _ => None
            | [] =>
              if (day <? 1) || (daysIn month year <? day) then None
              else Some (year, month, day)
            end
          end
        end
      end
    end
  end.

(** ** package models *)

Abbreviation Time := Z.

Record Set_ := mkSet {
  Reps : Z;
  Weight : option float
}.

Record Exercise := mkExercise {
  Name : gostring;
  Sets : list Set_
}.

Record Workout := mkWorkout {
  ID : Z;
  Title : gostring;
  Date : gostring;
  Notes : gostring;
  Exercises : list Exercise;
  CreatedAt : Time;
  UpdatedAt : Time
}.

Record CreateWorkoutRequest := mkCreateReq {
  cTitle : gostring;
  cDate : gostring;
  cNotes : gostring;
  cExercises : list Exercise
}.

(** A [nil] pointer is [None]. *)
Record UpdateWorkoutRequest := mkUpdateReq {
  uTitle : option gostring;
  uDate : option gostring;
  uNotes : option gostring;
  uExercises : option (list Exercise)
}.

(** ** package store *)

Record WorkoutStore := mkStore {
  nextID : Z;
  workouts : gmap Z Workout
}.

Definition NewWorkoutStore : WorkoutStore :=
  {| nextID := 1; workouts := ∅ |}.

Definition Create (now : Time) (w : Workout) (s : WorkoutStore)
  : Workout * WorkoutStore :=
  let w' := {| ID := nextID s; Title := Title w; Date := Date w;
               Notes := Notes w; Exercises := Exercises w;
               CreatedAt := now; UpdatedAt := now |} in
  (w', {| nextID := wrapInt (nextID s + 1);
          workouts := <[ID w' := w']> (workouts s) |}).

(** Go leaves the iteration order of a map unspecified; the order chosen
    here is that of [map_to_list]. *)
Definition List_ (s : WorkoutStore) : list Workout :=
  snd <$> map_to_list (workouts s).

Definition Get (id : Z) (s : WorkoutStore) : option Workout :=
  workouts s !! id.

Definition withUpdatedAt (now : Time) (w : Workout) : Workout :=
  {| ID := ID w; Title := Title w; Date := Date w; Notes := Notes w;
     Exercises := Exercises w; CreatedAt := CreatedAt w; UpdatedAt := now |}.

(** [None] is the error ["not found"]. *)
Definition Update (now : Time) (id : Z) (upd : Workout -> Workout)
  (s : WorkoutStore) : option Workout * WorkoutStore :=
  match workouts s !! id with
  | None => (None, s)
  | Some cur =>
      let cur' := withUpdatedAt now (upd cur) in
      (Some cur', {| nextID := nextID s; workouts := <[id := cur']> (workouts s) |})
  end.

Definition Delete (id : Z) (s : WorkoutStore) : bool * WorkoutStore :=
  match workouts s !! id with
  | None => (false, s)
  | Some _ => (true, {| nextID := nextID s; workouts := delete id (workouts s) |})
  end.

(** ** package httpjson and the HTTP boundary *)

(** The JSON value a handler encodes into the response. *)
Inductive Payload :=
| NoBody
| JSONMap (kv : list (gostring * gostring))
| JSONError (msg : gostring)
| JSONWorkout (w : Workout)
| JSONWorkouts (ws : list Workout).

(** What has been written to an [http.ResponseWriter]. *)
Record ResponseWriter := mkResponse {
  header : gmap gostring gostring;
  status : Z;
  body : Payload
}.

Definition newResponseWriter : ResponseWriter :=
  {| header := ∅; status := 0; body := NoBody |}.

(** The request body is represented by what [httpjson.ReadJSON] makes of it
    for each destination struct; [None] is a decoding error (malformed
    JSON, a field of the wrong type, an unknown field). *)
Record RequestBody := mkBody {
  asCreate : option CreateWorkoutRequest;
  asUpdate : option UpdateWorkoutRequest
}.

Record Request := mkRequest {
  Method : gostring;
  URLPath : gostring;
  Body : RequestBody
}.

Definition StatusOK : Z := 200.
Definition StatusCreated : Z := 201.
Definition StatusNoContent : Z := 204.
Definition StatusBadRequest : Z := 400.
Definition StatusNotFound : Z := 404.
Definition StatusMethodNotAllowed : Z := 405.

Definition HeaderSet (k v : gostring) (w : ResponseWriter) : ResponseWriter :=
  {| header := <[k := v]> (header w); status := status w; body := body w |}.

Definition WriteHeader (st : Z) (w : ResponseWriter) : ResponseWriter :=
  {| header := header w; status := st; body := body w |}.

Definition WriteJSON (w : ResponseWriter) (st : Z) (payload : Payload)
  : ResponseWriter :=
  {| header := <[lit "Content-Type" := lit "application/json"]> (header w);
     status := st; body := payload |}.

Definition WriteError (w : ResponseWriter) (st : Z) (msg : gostring)
  : ResponseWriter :=
  WriteJSON w st (JSONError msg).

Definition ReadJSON_create (r : Request) : option CreateWorkoutRequest :=
  asCreate (Body r).

Definition ReadJSON_update (r : Request) : option UpdateWorkoutRequest :=
  asUpdate (Body r).

(** ** package handlers *)

(** An [http.Handler] over the server's store; [now] is the clock reading
    of the one [time.Now()] a request can reach. *)
Definition Handler : Type :=
  Time -> ResponseWriter -> Request -> WorkoutStore -> ResponseWriter * WorkoutStore.

Definition HealthHandler_ServeHTTP : Handler :=
  fun now w r s =>
    (WriteJSON w StatusOK (JSONMap [(lit "status", lit "ok")]), s).

(** The digits of [strconv.Atoi], most significant first. *)
Fixpoint digitsVal (acc : Z) (s : gostring) : option Z :=
  match s with
  | [] => Some acc
  | c :: s' => if isDigit c then digitsVal (acc * 10 + digitVal c) s' else None
  end.

(** [strconv.Atoi]: an optional sign, at least one decimal digit, and a
    value that fits an [int]; [None] is an error. *)
Definition Atoi (s : gostring) : option Z :=
  let '(neg, ds) :=
    match s with
    | c :: rest =>
        if c =? 45 then (true, rest)
        else if c =? 43 then (false, rest)
        else (false, s)
    | [] => (false, [])
    end in
  match ds with
  | [] => None
  | _ :: _ =>
      match digitsVal 0 ds with
      | None => None
      | Some n =>
          let v := if neg then - n else n in
          if (minInt <=? v) && (v <=? maxInt) then Some v else None
      end
  end.

Definition parseWorkoutID (path : gostring) : option Z :=
  match SplitSlash (TrimSlash path) with
  | [p0; p1] =>
      if negb (streq p0 (lit "workouts")) then None
      else match Atoi p1 with
           | None => None
           | Some id => if id <=? 0 then None else Some id
           end
  | _ => None
  end.

(** [*set.Weight < 0] on a present weight. *)
Definition weightNegative (w : option float) : bool :=
  match w with
  | Some x => PrimFloat.ltb x 0%float
  | None => false
  end.

(** The inner loop of [validateExercises] from set index [si] on: [Some msg]
    where it returns [msg], [None] where it runs to its end. *)
Fixpoint validateSets (name : gostring) (si : Z) (sets : list Set_)
  : option gostring :=
  match sets with
  | [] => None
  | set :: rest =>
      if Reps set <=? 0 then
        Some (lit "reps must be > 0 for exercise: " ++ name
              ++ lit ", set index " ++ Itoa si)
      else if weightNegative (Weight set) then
        Some (lit "weight must be >= 0 for exercise: " ++ name
              ++ lit ", set index " ++ Itoa si)
      else validateSets name (si + 1) rest
  end.

(** The outer loop of [validateExercises] from exercise index [i] on. *)
Fixpoint validateExercisesFrom (i : Z) (exercises : list Exercise) : gostring :=
  match exercises with
  | [] => []
  | ex :: rest =>
      let name := TrimSpace (Name ex) in
      if streq name [] then
        lit "exercise name is required (at index " ++ Itoa i ++ lit ")"
      else if Z.of_nat (length (Sets ex)) =? 0 then
        lit "exercise sets must have at least 1 set for: " ++ name
      else match validateSets name 0 (Sets ex) with
           | Some msg => msg
           | None => validateExercisesFrom (i + 1) rest
           end
  end.

(** The empty string is "no error". *)
Definition validateExercises (exercises : list Exercise) : gostring :=
  validateExercisesFrom 0 exercises.

Definition zeroTime : Time := 0.

Definition WorkoutsHandler_ServeHTTP : Handler :=
  fun now w r s =>
    if streq (Method r) (lit "GET") then
      (WriteJSON w StatusOK (JSONWorkouts (List_ s)), s)
    else if streq (Method r) (lit "POST") then
      match ReadJSON_create r with
      | None => (WriteError w StatusBadRequest (lit "Invalid JSON"), s)
      | Some req =>
          let title := TrimSpace (cTitle req) in
          let date := TrimSpace (cDate req) in
          let notes := TrimSpace (cNotes req) in
          if streq title [] then
            (WriteError w StatusBadRequest (lit "title is required"), s)
          else if streq date [] then
            (WriteError w StatusBadRequest (lit "date is required (YYYY-MM-DD)"), s)
          else match parseDate date with
          | None => (WriteError w StatusBadRequest (lit "date must be YYYY-MM-DD"), s)
          | Some _ =>
              let err := validateExercises (cExercises req) in
              if negb (streq err []) then (WriteError w StatusBadRequest err, s)
              else
                let wk := {| ID := 0; Title := title; Date := date; Notes := notes;
                             Exercises := cExercises req;
                             CreatedAt := zeroTime; UpdatedAt := zeroTime |} in
                let '(created, s') := Create now wk s in
                (WriteJSON w StatusCreated (JSONWorkout created), s')
          end
      end
    else (WriteError w StatusMethodNotAllowed (lit "Method not allowed"), s).

Definition setTitle (t : gostring) (w : Workout) : Workout :=
  {| ID := ID w; Title := t; Date := Date w; Notes := Notes w;
     Exercises := Exercises w; CreatedAt := CreatedAt w; UpdatedAt := UpdatedAt w |}.

Definition setDate (d : gostring) (w : Workout) : Workout :=
  {| ID := ID w; Title := Title w; Date := d; Notes := Notes w;
     Exercises := Exercises w; CreatedAt := CreatedAt w; UpdatedAt := UpdatedAt w |}.

Definition setNotes (n : gostring) (w : Workout) : Workout :=
  {| ID := ID w; Title := Title w; Date := Date w; Notes := n;
     Exercises := Exercises w; CreatedAt := CreatedAt w; UpdatedAt := UpdatedAt w |}.

Definition setExercises (e : list Exercise) (w : Workout) : Workout :=
  {| ID := ID w; Title := Title w; Date := Date w; Notes := Notes w;
     Exercises := e; CreatedAt := CreatedAt w; UpdatedAt := UpdatedAt w |}.

(** The copy [updated] of the PUT branch once the fields present in the
    patch have been written and title and date trimmed again (source lines
    143-159). *)
Definition mergePatch (cur : Workout) (req : UpdateWorkoutRequest) : Workout :=
  let u0 := cur in
  let u1 := match uTitle req with Some t => setTitle (TrimSpace t) u0 | None => u0 end in
  let u2 := match uDate req with Some d => setDate (TrimSpace d) u1 | None => u1 end in
  let u3 := match uNotes req with Some n => setNotes (TrimSpace n) u2 | None => u2 end in
  let u4 := match uExercises req with Some e => setExercises e u3 | None => u3 end in
  let u5 := setTitle (TrimSpace (Title u4)) u4 in
  setDate (TrimSpace (Date u5)) u5.

Definition WorkoutByIDHandler_ServeHTTP : Handler :=
  fun now w r s =>
    match parseWorkoutID (URLPath r) with
    | None => (WriteError w StatusNotFound (lit "Not found"), s)
    | Some id =>
      if streq (Method r) (lit "GET") then
        match Get id s with
        | None => (WriteError w StatusNotFound (lit "Workout not found"), s)
        | Some wk => (WriteJSON w StatusOK (JSONWorkout wk), s)
        end
      else if streq (Method r) (lit "PUT") then
        match ReadJSON_update r with
        | None => (WriteError w StatusBadRequest (lit "Invalid JSON"), s)
        | Some req =>
          match Get id s with
          | None => (WriteError w StatusNotFound (lit "Workout not found"), s)
          | Some cur =>
            let updated := mergePatch cur req in
            if streq (Title updated) [] then
              (WriteError w StatusBadRequest (lit "title cannot be empty"), s)
            else if streq (Date updated) [] then
              (WriteError w StatusBadRequest (lit "date cannot be empty"), s)
            else match parseDate (Date updated) with
            | None => (WriteError w StatusBadRequest (lit "date must be YYYY-MM-DD"), s)
            | Some _ =>
              let errMsg := validateExercises (Exercises updated) in
              if negb (streq errMsg []) then (WriteError w StatusBadRequest errMsg, s)
              else
                match Update now id (fun _ => updated) s with
                | (None, s') => (WriteError w StatusNotFound (lit "Workout not found"), s')
                | (Some final, s') => (WriteJSON w StatusOK (JSONWorkout final), s')
                end
            end
          end
        end
      else if streq (Method r) (lit "DELETE") then
        match Delete id s with
        | (false, s') => (WriteError w StatusNotFound (lit "Workout not found"), s')
        | (true, s') => (WriteHeader StatusNoContent w, s')
        end
      else (WriteError w StatusMethodNotAllowed (lit "Method not allowed"), s)
    end.

(** ** package main: the CORS wrapper *)

Definition withCORS (next : Handler) : Handler :=
  fun now w r s =>
    let w1 := HeaderSet (lit "Access-Control-Allow-Origin") (lit "*") w in
    let w2 := HeaderSet (lit "Access-Control-Allow-Methods")
                        (lit "GET, POST, PUT, DELETE, OPTIONS") w1 in
    let w3 := HeaderSet (lit "Access-Control-Allow-Headers") (lit "Content-Type") w2 in
    if streq (Method r) (lit "OPTIONS") then (WriteHeader StatusNoContent w3, s)
    else next now w3 r s.

(** The three handlers [main] registers on its mux. *)
Inductive Route := RouteHealth | RouteWorkouts | RouteWorkoutByID.

Definition routeHandler (rt : Route) : Handler :=
  match rt with
  | RouteHealth => HealthHandler_ServeHTTP
  | RouteWorkouts => WorkoutsHandler_ServeHTTP
  | RouteWorkoutByID => WorkoutByIDHandler_ServeHTTP
  end.

(** One request served by the process: the handler the mux selected, behind
    the CORS wrapper, at clock reading [now]. *)
Record Call := mkCall {
  callRoute : Route;
  callNow : Time;
  callRequest : Request
}.

Definition serve (c : Call) (s : WorkoutStore) : ResponseWriter * WorkoutStore :=
  withCORS (routeHandler (callRoute c)) (callNow c) newResponseWriter (callRequest c) s.

(** The store after a sequence of requests. *)
Fixpoint serveAll (cs : list Call) (s : WorkoutStore) : WorkoutStore :=
  match cs with
  | [] => s
  | c :: cs' => serveAll cs' (snd (serve c s))
  end.

(** ** Sequences of store operations *)

Inductive StoreOp :=
| OpCreate (now : Time) (w : Workout)
| OpUpdate (now : Time) (id : Z) (upd : Workout -> Workout)
| OpDelete (id : Z).

(** One operation: the ID it issued, if it is a [Create], and the store
    after it. *)
Definition applyOp (op : StoreOp) (s : WorkoutStore) : option Z * WorkoutStore :=
  match op with
  | OpCreate now w => let '(w', s') := Create now w s in (Some (ID w'), s')
  | OpUpdate now id upd => (None, snd (Update now id upd s))
  | OpDelete id => (None, snd (Delete id s))
  end.

(** The IDs issued along a sequence of operations, oldest first, and the
    store after it. *)
Fixpoint runOps (ops : list StoreOp) (s : WorkoutStore) : list Z * WorkoutStore :=
  match ops with
  | [] => ([], s)
  | op :: ops' =>
      let '(issued, s1) := applyOp op s in
      let '(ids, s2) := runOps ops' s1 in
      (match issued with Some id => id :: ids | None => ids end, s2)
  end.

Definition isCreate (op : StoreOp) : bool :=
  match op with OpCreate _ _ => true | _ => false end.

Definition countCreates (ops : list StoreOp) : nat :=
  length (filter (fun op => isCreate op = true) ops).

Definition setID (id : Z) (w : Workout) : Workout :=
  {| ID := id; Title := Title w; Date := Date w; Notes := Notes w;
     Exercises := Exercises w; CreatedAt := CreatedAt w; UpdatedAt := UpdatedAt w |}.

(** ** What validation accepts *)

(** Empty, or starting with a character [f] rejects: what trimming on the
    left leaves. *)
Definition headKept (f : rune -> bool) (s : gostring) : Prop :=
  match s with [] => True | c :: _ => f c = false end.

(** A set the inner loop passes over. *)
Definition setOK (st : Set_) : Prop :=
  0 < Reps st /\ weightNegative (Weight st) = false.

(** An exercise the outer loop passes over. *)
Definition exerciseOK (ex : Exercise) : Prop :=
  TrimSpace (Name ex) <> [] /\ Sets ex <> [] /\ Forall setOK (Sets ex).

(** The checks both handlers make on a candidate before writing it. *)
Definition candidateOK (title date : gostring) (exercises : list Exercise) : Prop :=
  title <> [] /\ date <> [] /\ parseDate date <> None
  /\ validateExercises exercises = [].

(** What holds of every record the handlers have stored. *)
Definition recordValid (wk : Workout) : Prop :=
  TrimSpace (Title wk) = Title wk /\ TrimSpace (Date wk) = Date wk
  /\ candidateOK (Title wk) (Date wk) (Exercises wk).

(** Every stored record is valid and its updatedAt satisfies [P]. *)
Definition storeValid (P : Time -> Prop) (s : WorkoutStore) : Prop :=
  forall k wk, workouts s !! k = Some wk -> recordValid wk /\ P (UpdatedAt wk).

(** The create request that carries the fields of a candidate record. *)
Definition requestOf (m : Workout) : CreateWorkoutRequest :=
  {| cTitle := Title m; cDate := Date m; cNotes := Notes m;
     cExercises := Exercises m |}.

Definition emptyPatch : UpdateWorkoutRequest :=
  {| uTitle := None; uDate := None; uNotes := None; uExercises := None |}.

(** ** Invariants of the store *)

(** Every record sits under its own ID. *)
Definition storeKeyed (s : WorkoutStore) : Prop :=
  forall k wk, workouts s !! k = Some wk -> ID wk = k.

(** Every key is an ID issued so far: positive and below the counter. *)
Definition keysBelow (s : WorkoutStore) : Prop :=
  forall k wk, workouts s !! k = Some wk -> 1 <= k < nextID s.

(** Every record was created no later than it was last updated, and last
    updated no later than [t]. *)
Definition storeTimes (t : Time) (s : WorkoutStore) : Prop :=
  forall k wk, workouts s !! k = Some wk ->
    CreatedAt wk <= UpdatedAt wk /\ UpdatedAt wk <= t.

(** The clock readings of a sequence of requests never go back, starting
    from [t]. *)
Fixpoint clockFrom (t : Time) (cs : list Call) : Prop :=
  match cs with
  | [] => True
  | c :: cs' => t <= callNow c /\ clockFrom (callNow c) cs'
  end.

(** The clock reading of the last request, [t] if there is none. *)
Fixpoint lastNow (t : Time) (cs : list Call) : Time :=
  match cs with
  | [] => t
  | c :: cs' => lastNow (callNow c) cs'
  end.

(** ** The ways a request can end *)

(** The response writer a handler receives from [withCORS]: the three CORS
    headers set. *)
Definition corsWriter (w : ResponseWriter) : ResponseWriter :=
  HeaderSet (lit "Access-Control-Allow-Headers") (lit "Content-Type")
    (HeaderSet (lit "Access-Control-Allow-Methods")
               (lit "GET, POST, PUT, DELETE, OPTIONS")
       (HeaderSet (lit "Access-Control-Allow-Origin") (lit "*") w)).

(** The record the POST branch hands to [Create] (source lines 81-86). *)
Definition candidateOf (req : CreateWorkoutRequest) : Workout :=
  {| ID := 0; Title := TrimSpace (cTitle req); Date := TrimSpace (cDate req);
     Notes := TrimSpace (cNotes req); Exercises := cExercises req;
     CreatedAt := zeroTime; UpdatedAt := zeroTime |}.

(** A request that reads: 200 with a payload, the store as it was. *)
Definition endsRead (rt : Route) (w : ResponseWriter) (r : Request)
  (s : WorkoutStore) (res : ResponseWriter * WorkoutStore) : Prop :=
  snd res = s
  /\ exists payload, fst res = WriteJSON w StatusOK payload
     /\ ((rt = RouteHealth /\ payload = JSONMap [(lit "status", lit "ok")])
         \/ (rt = RouteWorkouts /\ Method r = lit "GET"
             /\ payload = JSONWorkouts (List_ s))
         \/ (rt = RouteWorkoutByID /\ Method r = lit "GET"
             /\ exists id wk, parseWorkoutID (URLPath r) = Some id
                /\ Get id s = Some wk /\ payload = JSONWorkout wk)).

(** A request that fails: 400, 404 or 405 with a message, the store as it
    was. *)
Definition endsError (w : ResponseWriter) (s : WorkoutStore)
  (res : ResponseWriter * WorkoutStore) : Prop :=
  snd res = s
  /\ exists st msg, fst res = WriteError w st msg
     /\ (st = StatusBadRequest \/ st = StatusNotFound \/ st = StatusMethodNotAllowed).

(** A POST that creates. *)
Definition endsCreated (rt : Route) (now : Time) (w : ResponseWriter)
  (r : Request) (s : WorkoutStore) (res : ResponseWriter * WorkoutStore) : Prop :=
  rt = RouteWorkouts /\ Method r = lit "POST"
  /\ exists req, ReadJSON_create r = Some req
     /\ candidateOK (TrimSpace (cTitle req)) (TrimSpace (cDate req)) (cExercises req)
     /\ res = (WriteJSON w StatusCreated
                 (JSONWorkout (fst (Create now (candidateOf req) s))),
               snd (Create now (candidateOf req) s)).

(** A PUT that updates. *)
Definition endsUpdated (rt : Route) (now : Time) (w : ResponseWriter)
  (r : Request) (s : WorkoutStore) (res : ResponseWriter * WorkoutStore) : Prop :=
  rt = RouteWorkoutByID /\ Method r = lit "PUT"
  /\ exists id cur req, parseWorkoutID (URLPath r) = Some id
     /\ ReadJSON_update r = Some req /\ Get id s = Some cur
     /\ candidateOK (Title (mergePatch cur req)) (Date (mergePatch cur req))
                    (Exercises (mergePatch cur req))
     /\ res = (WriteJSON w StatusOK
                 (JSONWorkout (withUpdatedAt now (mergePatch cur req))),
               {| nextID := nextID s;
                  workouts := <[id := withUpdatedAt now (mergePatch cur req)]>
                                (workouts s) |}).

(** A DELETE that removes. *)
Definition endsDeleted (rt : Route) (w : ResponseWriter) (r : Request)
  (s : WorkoutStore) (res : ResponseWriter * WorkoutStore) : Prop :=
  rt = RouteWorkoutByID /\ Method r = lit "DELETE"
  /\ exists id wk, parseWorkoutID (URLPath r) = Some id /\ Get id s = Some wk
     /\ res = (WriteHeader StatusNoContent w,
               {| nextID := nextID s; workouts := delete id (workouts s) |}).

(** ** The mobile client: the workout form of [workouts.tsx]

    A JavaScript string is the list of its UTF-16 code units, a JavaScript
    number a binary64 [float]; an array index is a [nat] (a number that is
    no index of the array behaves as an index out of range). *)

Record JsSet := mkJsSet {
  jsReps : float;
  jsWeight : option float
}.

Record JsExercise := mkJsExercise {
  jsName : gostring;
  jsSets : list JsSet
}.

Record FormData := mkForm {
  fTitle : gostring;
  fDate : gostring;
  fNotes : gostring;
  fExercises : list JsExercise
}.

(** The code units [String.prototype.trim] removes: WhiteSpace and
    LineTerminator of ECMAScript. *)
Definition isJSSpace (c : Z) : bool :=
  (9 <=? c) && (c <=? 13)
  || (c =? 32) || (c =? 160) || (c =? 5760)
  || (8192 <=? c) && (c <=? 8202)
  || (c =? 8232) || (c =? 8233) || (c =? 8239) || (c =? 8287) || (c =? 12288)
  || (c =? 65279).

(** [s.trim()]. *)
Definition jsTrim (s : gostring) : gostring := TrimFunc isJSSpace s.

(** A string in a condition: the empty string is falsy. *)
Definition truthy (s : gostring) : bool := negb (streq s []).

(** [ex.sets.filter(s => s.reps > 0)]. *)
Definition positiveSets (sets : list JsSet) : list JsSet :=
  List.filter (fun s => PrimFloat.ltb 0%float (jsReps s)) sets.

(** The [validExercises] of [handleSave] (lines 152-158; the same
    pipeline is in [handleFinish] of [workout.tsx]). *)
Definition validExercises (exercises : list JsExercise) : list JsExercise :=
  List.filter (fun ex => (0 <? length (jsSets ex))%nat)
    (map (fun ex => {| jsName := jsName ex; jsSets := positiveSets (jsSets ex) |})
       (List.filter (fun ex => truthy (jsTrim (jsName ex))) exercises)).

(** [{ reps: 0 }] and [{ name: '', sets: [{ reps: 0 }] }]. *)
Definition blankSet : JsSet := {| jsReps := 0%float; jsWeight := None |}.

Definition blankExercise : JsExercise := {| jsName := []; jsSets := [blankSet] |}.

(** [getEmptyForm]; [today] is the date part of [new Date().toISOString()]. *)
Definition getEmptyForm (today : gostring) : FormData :=
  {| fTitle := []; fDate := today; fNotes := []; fExercises := [blankExercise] |}.

Definition setFormExercises (exercises : list JsExercise) (f : FormData) : FormData :=
  {| fTitle := fTitle f; fDate := fDate f; fNotes := fNotes f;
     fExercises := exercises |}.

(** [l.filter((_, i) => i !== index)], positions counted from [i]. *)
Fixpoint filterNotIndex {A} (i index : nat) (l : list A) : list A :=
  match l with
  | [] => []
  | x :: l' =>
      if Nat.eqb i index then filterNotIndex (S i) index l'
      else x :: filterNotIndex (S i) index l'
  end.

Definition addExercise (f : FormData) : FormData :=
  setFormExercises (fExercises f ++ [blankExercise]) f.

(** A form with at most one exercise is left as it is. *)
Definition removeExercise (index : nat) (f : FormData) : FormData :=
  if (length (fExercises f) <=? 1)%nat then f
  else setFormExercises (filterNotIndex 0 index (fExercises f)) f.

(** [None]: reading [.sets] of the missing exercise throws, the form state
    is not set. *)
Definition addSet (exerciseIndex : nat) (f : FormData) : option FormData :=
  match fExercises f !! exerciseIndex with
  | None => None
  | Some ex =>
      Some (setFormExercises
              (<[exerciseIndex := {| jsName := jsName ex;
                                     jsSets := jsSets ex ++ [blankSet] |}]>
                 (fExercises f)) f)
  end.

Definition removeSet (exerciseIndex setIndex : nat) (f : FormData)
  : option FormData :=
  match fExercises f !! exerciseIndex with
  | None => None
  | Some ex =>
      if (length (jsSets ex) <=? 1)%nat then Some f
      else Some (setFormExercises
                   (<[exerciseIndex := {| jsName := jsName ex;
                        jsSets := filterNotIndex 0 setIndex (jsSets ex) |}]>
                      (fExercises f)) f)
  end.

(** An exercise [validExercises] keeps as it is. *)
Definition keptExercise (ex : JsExercise) : Prop :=
  jsTrim (jsName ex) <> [] /\ jsSets ex <> []
  /\ Forall (fun s => PrimFloat.ltb 0%float (jsReps s) = true) (jsSets ex).

(** The form shows at least one exercise, each with at least one set. *)
Definition formRows (f : FormData) : Prop :=
  fExercises f <> [] /\ Forall (fun ex => jsSets ex <> []) (fExercises f).

(** ** Sample requests *)

Definition benchPress : Exercise :=
  {| Name := lit "Bench Press"; Sets := [ {| Reps := 8; Weight := Some 60%float |} ] |}.

Definition pushDay : CreateWorkoutRequest :=
  {| cTitle := lit "Push Day"; cDate := lit "2026-01-16"; cNotes := [];
     cExercises := [benchPress] |}.

Definition postRequest (req : CreateWorkoutRequest) : Request :=
  {| Method := lit "POST"; URLPath := lit "/workouts";
     Body := {| asCreate := Some req; asUpdate := None |} |}.

Definition putRequest (path : gostring) (req : UpdateWorkoutRequest) : Request :=
  {| Method := lit "PUT"; URLPath := path;
     Body := {| asCreate := None; asUpdate := Some req |} |}.

Definition bareRequest (method path : gostring) : Request :=
  {| Method := method; URLPath := path;
     Body := {| asCreate := None; asUpdate := None |} |}.

Definition paddedSquat : CreateWorkoutRequest :=
  {| cTitle := lit "Leg Day"; cDate := lit "2025-01-01"; cNotes := [];
     cExercises := [ {| Name := lit " Squat ";
                        Sets := [ {| Reps := 5; Weight := None |} ] |} ] |}.

Definition blankDate : CreateWorkoutRequest :=
  {| cTitle := lit "Leg Day"; cDate := lit "  "; cNotes := []; cExercises := [] |}.

Definition blankTitlePatch : UpdateWorkoutRequest :=
  {| uTitle := Some (lit " "); uDate := None; uNotes := None; uExercises := None |}.

Definition notesPatch : UpdateWorkoutRequest :=
  {| uTitle := None; uDate := None; uNotes := Some (lit " heavy "); uExercises := None |}.

Definition squatNoReps : list Exercise :=
  [ {| Name := lit "Squat"; Sets := [ {| Reps := 0; Weight := None |} ] |} ].

(** The store after one successful POST of [pushDay] at clock reading 100. *)
Definition pushDayCalls : list Call :=
  [ {| callRoute := RouteWorkouts; callNow := 100; callRequest := postRequest pushDay |} ].

Definition pushDayStore : WorkoutStore := serveAll pushDayCalls NewWorkoutStore.

Definition pushDayRecord : Workout :=
  {| ID := 1; Title := lit "Push Day"; Date := lit "2026-01-16"; Notes := [];
     Exercises := [benchPress]; CreatedAt := 100; UpdatedAt := 100 |}.

(** Two creates around a delete; the first candidate carries an ID of its
    own. *)
Definition createDeleteCreate : list StoreOp :=
  [ OpCreate 10 (setID 7 pushDayRecord); OpDelete 1; OpCreate 20 pushDayRecord ].

(** A POST that fails validation, a GET of the list and a POST that
    creates, each at clock reading 200. *)
Definition blankDateCall : Call :=
  {| callRoute := RouteWorkouts; callNow := 200; callRequest := postRequest blankDate |}.

Definition listCall : Call :=
  {| callRoute := RouteWorkouts; callNow := 200;
     callRequest := bareRequest (lit "GET") (lit "/workouts") |}.

Definition paddedSquatCall : Call :=
  {| callRoute := RouteWorkouts; callNow := 200; callRequest := postRequest paddedSquat |}.

(** * Properties *)

Example parseDate_ok : parseDate (lit "2026-01-16") = Some (2026, 1, 16).
Proof. reflexivity. Qed.

Example parseDate_bad : parseDate (lit "2025-13-40") = None.
Proof. reflexivity. Qed.

Example trim_ex : TrimSpace (lit "  Squat ") = lit "Squat".
Proof. reflexivity. Qed.

Example itoa_ex : Itoa 12 = lit "12" /\ Itoa 0 = lit "0" /\ Itoa (-7) = lit "-7".
Proof. repeat split; reflexivity. Qed.

Example parseWorkoutID_ex :
  parseWorkoutID (lit "/workouts/12") = Some 12
  /\ parseWorkoutID (lit "/workouts/12/") = Some 12
  /\ parseWorkoutID (lit "/workouts/+5") = Some 5
  /\ parseWorkoutID (lit "/workouts/0") = None
  /\ parseWorkoutID (lit "/workouts/abc") = None
  /\ parseWorkoutID (lit "/workouts/1/2") = None
  /\ parseWorkoutID (lit "/workouts/9223372036854775808") = None.
Proof. vm_compute. repeat split. Qed.

Example validateExercises_squat :
  validateExercises squatNoReps = lit "reps must be > 0 for exercise: Squat, set index 0".
Proof. vm_compute. reflexivity. Qed.

(** The end-to-end scenario of the specification: create, read, delete,
    read again. *)
Example push_day_scenario :
  let get := bareRequest (lit "GET") (lit "/workouts/1") in
  let del := bareRequest (lit "DELETE") (lit "/workouts/1") in
  let r1 := WorkoutsHandler_ServeHTTP 100 newResponseWriter (postRequest pushDay)
              NewWorkoutStore in
  let r2 := WorkoutByIDHandler_ServeHTTP 110 newResponseWriter get (snd r1) in
  let r3 := WorkoutByIDHandler_ServeHTTP 120 newResponseWriter del (snd r2) in
  let r4 := WorkoutByIDHandler_ServeHTTP 130 newResponseWriter get (snd r3) in
  status (fst r1) = 201 /\ body (fst r1) = JSONWorkout pushDayRecord
  /\ status (fst r2) = 200 /\ body (fst r2) = JSONWorkout pushDayRecord
  /\ status (fst r3) = 204
  /\ status (fst r4) = 404.
Proof. vm_compute. repeat split. Qed.

(** ** Strings *)

Section Trim.
Variable f : rune -> bool.

Lemma TrimLeftFunc_headKept s : headKept f (TrimLeftFunc f s).
Proof.
  induction s as [|c s IH]; simpl; [exact I|].
  destruct (f c) eqn:E; [exact IH | exact E].
Qed.

Lemma TrimLeftFunc_fixed s : headKept f s -> TrimLeftFunc f s = s.
Proof. destruct s as [|c s]; simpl; [reflexivity|]. intros ->. reflexivity. Qed.

Lemma TrimLeftFunc_suffix s : exists p, s = p ++ TrimLeftFunc f s.
Proof.
  induction s as [|c s [p IH]]; simpl.
  - exists []. reflexivity.
  - destruct (f c).
    + exists (c :: p). simpl. congruence.
    + exists []. reflexivity.
Qed.

Lemma TrimRightFunc_headKept s :
  headKept f s -> headKept f (TrimRightFunc f s).
Proof.
  intros Hs. unfold TrimRightFunc.
  destruct (TrimLeftFunc_suffix (rev s)) as [p Hp].
  remember (TrimLeftFunc f (rev s)) as u eqn:Hu.
  assert (Hst : s = rev u ++ rev p).
  { rewrite <- (rev_involutive s), Hp, rev_app_distr. reflexivity. }
  destruct (rev u) as [|c t] eqn:Er; [exact I|].
  rewrite Hst in Hs. exact Hs.
Qed.

Lemma TrimFunc_idempotent s : TrimFunc f (TrimFunc f s) = TrimFunc f s.
Proof.
  unfold TrimFunc.
  rewrite (TrimLeftFunc_fixed (TrimRightFunc f (TrimLeftFunc f s))).
  - unfold TrimRightFunc. rewrite rev_involutive.
    rewrite (TrimLeftFunc_fixed (TrimLeftFunc f _)); [reflexivity|].
    apply TrimLeftFunc_headKept.
  - apply TrimRightFunc_headKept, TrimLeftFunc_headKept.
Qed.
End Trim.

Lemma TrimSpace_idempotent s : TrimSpace (TrimSpace s) = TrimSpace s.
Proof. apply TrimFunc_idempotent. Qed.

Lemma streq_true a b : streq a b = true <-> a = b.
Proof. unfold streq. apply bool_decide_eq_true. Qed.

Lemma streq_false a b : streq a b = false <-> a <> b.
Proof. unfold streq. apply bool_decide_eq_false. Qed.

Lemma streq_nil_case (a : gostring) :
  (a = [] /\ streq a [] = true) \/ (a <> [] /\ streq a [] = false).
Proof.
  destruct (streq a []) eqn:E.
  - left. split; [apply streq_true, E | reflexivity].
  - right. split; [apply streq_false, E | reflexivity].
Qed.

Lemma lit_app_nonempty c s (rest : gostring) : lit (String c s) ++ rest <> [].
Proof. unfold lit. cbn. discriminate. Qed.

(** ** Exercise validation *)

Lemma validateSets_pass name si sets :
  Forall setOK sets -> validateSets name si sets = None.
Proof.
  intros H. revert si. induction H as [|st sets [Hr Hw] _ IH]; intros si; cbn [validateSets].
  - reflexivity.
  - destruct (Z.leb_spec (Reps st) 0); [lia|]. rewrite Hw. apply IH.
Qed.

Lemma validateSets_pass_inv name si sets :
  validateSets name si sets = None -> Forall setOK sets.
Proof.
  revert si. induction sets as [|st sets IH]; intros si; cbn [validateSets].
  - constructor.
  - destruct (Z.leb_spec (Reps st) 0); [discriminate|].
    destruct (weightNegative (Weight st)) eqn:Hw; [discriminate|].
    intros H'. constructor; [split; assumption | eapply IH, H'].
Qed.

Lemma validateSets_first_failure name si sets (j : nat) st :
  sets !! j = Some st -> Forall setOK (take j sets) ->
  (Reps st <= 0 ->
     validateSets name si sets =
       Some (lit "reps must be > 0 for exercise: " ++ name
             ++ lit ", set index " ++ Itoa (si + Z.of_nat j)))
  /\ (0 < Reps st -> weightNegative (Weight st) = true ->
     validateSets name si sets =
       Some (lit "weight must be >= 0 for exercise: " ++ name
             ++ lit ", set index " ++ Itoa (si + Z.of_nat j))).
Proof.
  revert si j. induction sets as [|s0 sets IH]; intros si j Hj Hpre.
  - discriminate.
  - destruct j as [|j].
    + injection Hj as ->. rewrite Z.add_0_r. cbn [validateSets]. split.
      * intros Hr. destruct (Z.leb_spec (Reps st) 0); [reflexivity | lia].
      * intros Hr Hw. destruct (Z.leb_spec (Reps st) 0); [lia|].
        rewrite Hw. reflexivity.
    + change ((s0 :: sets) !! S j) with (sets !! j) in Hj.
      change (take (S j) (s0 :: sets)) with (s0 :: take j sets) in Hpre.
      inversion Hpre as [|? ? [Hr0 Hw0] Hpre']; subst.
      cbn [validateSets].
      destruct (Z.leb_spec (Reps s0) 0); [lia|]. rewrite Hw0.
      destruct (IH (si + 1) j Hj Hpre') as [IH1 IH2].
      replace (si + Z.of_nat (S j)) with (si + 1 + Z.of_nat j) by lia.
      split; assumption.
Qed.

Lemma validateSets_msg_nonempty name si sets msg :
  validateSets name si sets = Some msg -> msg <> [].
Proof.
  revert si msg.
  induction sets as [|st sets IH]; intros si msg; cbn [validateSets]; [discriminate|].
  destruct (Reps st <=? 0).
  { intros H ->. injection H as H. discriminate H. }
  destruct (weightNegative (Weight st)).
  { intros H ->. injection H as H. discriminate H. }
  apply IH.
Qed.

Lemma length_zero_case {A} (l : list A) :
  (l = [] /\ (Z.of_nat (length l) =? 0) = true)
  \/ (l <> [] /\ (Z.of_nat (length l) =? 0) = false).
Proof. destruct l; [left | right]; split; try reflexivity; discriminate. Qed.

Lemma validateExercisesFrom_pass i exs :
  Forall exerciseOK exs -> validateExercisesFrom i exs = [].
Proof.
  intros H. revert i. induction H as [|ex exs (Hn & Hs & Hsets) _ IH]; intros i; cbn [validateExercisesFrom].
  - reflexivity.
  - destruct (streq_nil_case (TrimSpace (Name ex))) as [[E _]|[_ ->]]; [contradiction|].
    destruct (length_zero_case (Sets ex)) as [[E _]|[_ ->]]; [contradiction|].
    rewrite validateSets_pass by assumption. apply IH.
Qed.

Lemma validateExercisesFrom_pass_inv i exs :
  validateExercisesFrom i exs = [] -> Forall exerciseOK exs.
Proof.
  revert i. induction exs as [|ex exs IH]; intros i; cbn [validateExercisesFrom]; [constructor|].
  destruct (streq_nil_case (TrimSpace (Name ex))) as [[_ ->]|[Hn ->]].
  { intros H. exfalso. exact (lit_app_nonempty _ _ _ H). }
  destruct (length_zero_case (Sets ex)) as [[_ ->]|[Hs ->]].
  { intros H. exfalso. exact (lit_app_nonempty _ _ _ H). }
  destruct (validateSets (TrimSpace (Name ex)) 0 (Sets ex)) as [msg|] eqn:Ev.
  { intros ->. exfalso. exact (validateSets_msg_nonempty _ _ _ _ Ev eq_refl). }
  intros H. constructor; [|eapply IH, H].
  repeat split; try assumption. eapply validateSets_pass_inv, Ev.
Qed.

Lemma validateExercises_accepts exs :
  validateExercises exs = [] <-> Forall exerciseOK exs.
Proof.
  split; [apply validateExercisesFrom_pass_inv | apply validateExercisesFrom_pass].
Qed.

(** The outer loop run to exercise [i]: with the exercises before it passed
    over, the result is decided by exercise [i] alone. *)
Lemma validateExercisesFrom_skip i0 exs (i : nat) ex :
  exs !! i = Some ex -> Forall exerciseOK (take i exs) ->
  validateExercisesFrom i0 exs =
    validateExercisesFrom (i0 + Z.of_nat i) (ex :: drop (S i) exs).
Proof.
  revert i0 i. induction exs as [|e0 exs IH]; intros i0 i Hi Hpre; [discriminate|].
  destruct i as [|i].
  - injection Hi as ->. rewrite Z.add_0_r.
    change (drop 1 (ex :: exs)) with (drop 0 exs). rewrite drop_0. reflexivity.
  - change ((e0 :: exs) !! S i) with (exs !! i) in Hi.
    change (take (S i) (e0 :: exs)) with (e0 :: take i exs) in Hpre.
    inversion Hpre as [|? ? (Hn & Hs & Hsets) Hpre']; subst.
    change (drop (S (S i)) (e0 :: exs)) with (drop (S i) exs).
    replace (i0 + Z.of_nat (S i)) with (i0 + 1 + Z.of_nat i) by lia.
    rewrite <- (IH (i0 + 1) i Hi Hpre').
    cbn [validateExercisesFrom].
    destruct (streq_nil_case (TrimSpace (Name e0))) as [[E _]|[_ ->]]; [contradiction|].
    destruct (length_zero_case (Sets e0)) as [[E _]|[_ ->]]; [contradiction|].
    rewrite validateSets_pass by assumption. reflexivity.
Qed.

(** C5. Exercise validation walks the exercises in order and returns the
    first failure: an empty list, and any list whose exercises all pass, is
    accepted; with the exercises before index [i] passing, a blank trimmed
    name at [i] fails naming index [i], an exercise without sets fails naming
    the exercise, and with the sets before index [j] passing, a set with
    reps <= 0 and a set with a present negative weight each fail naming the
    exercise and the set index [j]. *)
Theorem validateExercises_first_failure (exs : list Exercise) :
  (exs = [] -> validateExercises exs = [])
  /\ (Forall exerciseOK exs -> validateExercises exs = [])
  /\ (forall (i : nat) ex,
        exs !! i = Some ex -> Forall exerciseOK (take i exs) ->
        let name := TrimSpace (Name ex) in
        (name = [] ->
           validateExercises exs =
             lit "exercise name is required (at index " ++ Itoa (Z.of_nat i) ++ lit ")")
        /\ (name <> [] -> Sets ex = [] ->
           validateExercises exs =
             lit "exercise sets must have at least 1 set for: " ++ name)
        /\ (name <> [] ->
            forall (j : nat) st,
              Sets ex !! j = Some st -> Forall setOK (take j (Sets ex)) ->
              (Reps st <= 0 ->
                 validateExercises exs =
                   lit "reps must be > 0 for exercise: " ++ name
                   ++ lit ", set index " ++ Itoa (Z.of_nat j))
              /\ (0 < Reps st -> weightNegative (Weight st) = true ->
                 validateExercises exs =
                   lit "weight must be >= 0 for exercise: " ++ name
                   ++ lit ", set index " ++ Itoa (Z.of_nat j)))).
Proof.
  split; [intros ->; reflexivity|].
  split; [apply validateExercisesFrom_pass|].
  intros i ex Hi Hpre name. unfold validateExercises.
  rewrite (validateExercisesFrom_skip 0 exs i ex Hi Hpre). rewrite Z.add_0_l.
  cbn [validateExercisesFrom]. fold name.
  destruct (streq_nil_case name) as [[Hn ->]|[Hn ->]].
  { split; [reflexivity|]. split; intros; contradiction. }
  split; [intros; contradiction|].
  destruct (length_zero_case (Sets ex)) as [[Hs ->]|[Hs ->]].
  { split; [reflexivity|]. intros _ j st Hj. rewrite Hs in Hj. discriminate. }
  split; [intros; contradiction|].
  intros _ j st Hj Hsets.
  destruct (validateSets_first_failure name 0 (Sets ex) j st Hj Hsets) as [H1 H2].
  rewrite Z.add_0_l in H1, H2.
  split.
  - intros Hr. rewrite (H1 Hr). reflexivity.
  - intros Hr Hw. rewrite (H2 Hr Hw). reflexivity.
Qed.

(** ** The store *)

Lemma wrapInt_in_range z : minInt <= z <= maxInt -> wrapInt z = z.
Proof.
  unfold wrapInt, minInt, maxInt. intros H.
  rewrite Z.mod_small by lia. lia.
Qed.

Lemma nextID_Update now id upd s : nextID (snd (Update now id upd s)) = nextID s.
Proof. unfold Update. destruct (workouts s !! id); reflexivity. Qed.

Lemma nextID_Delete id s : nextID (snd (Delete id s)) = nextID s.
Proof. unfold Delete. destruct (workouts s !! id); reflexivity. Qed.

Lemma countCreates_cons op ops :
  countCreates (op :: ops) =
    if isCreate op then S (countCreates ops) else countCreates ops.
Proof.
  unfold countCreates. rewrite filter_cons.
  destruct (isCreate op); destruct (decide _); try congruence; reflexivity.
Qed.

(** From a store whose counter is [nextID s], a sequence with [n] creates
    that does not exhaust the [int] range issues [nextID s], ...,
    [nextID s + n - 1] and leaves the counter at [nextID s + n]. *)
Lemma runOps_issued ops s :
  minInt <= nextID s ->
  nextID s + Z.of_nat (countCreates ops) <= maxInt + 1 ->
  fst (runOps ops s) = seqZ (nextID s) (Z.of_nat (countCreates ops))
  /\ (nextID s + Z.of_nat (countCreates ops) <= maxInt ->
      nextID (snd (runOps ops s)) = nextID s + Z.of_nat (countCreates ops)).
Proof.
  revert s. induction ops as [|op ops IH]; intros s Hlo Hhi.
  - cbn. split; [reflexivity | intros; lia].
  - rewrite countCreates_cons in *. cbn [runOps].
    destruct op as [now w | now id upd | id]; cbn [isCreate applyOp] in *.
    + cbn [Create ID].
      set (s1 := {| nextID := wrapInt (nextID s + 1); workouts := _ |}).
      destruct (runOps ops s1) as [ids s2] eqn:Er. cbn [fst snd].
      rewrite (seqZ_cons (nextID s)) by lia.
      replace (Z.pred (Z.of_nat (S (countCreates ops))))
        with (Z.of_nat (countCreates ops)) by lia.
      destruct (Z.eq_dec (nextID s) maxInt) as [Emax | Nmax].
      * assert (Hn : countCreates ops = 0%nat) by lia.
        assert (Hs1 : nextID s1 = minInt).
        { subst s1. cbn [nextID]. rewrite Emax. reflexivity. }
        destruct (IH s1) as [IH1 _]; [lia | unfold minInt, maxInt in *; lia |].
        rewrite Er in IH1. cbn [fst] in IH1. rewrite IH1, Hn.
        split; [rewrite !seqZ_nil by lia; reflexivity | intros; lia].
      * assert (Hs1 : nextID s1 = nextID s + 1).
        { subst s1. cbn [nextID]. apply wrapInt_in_range. lia. }
        destruct (IH s1) as [IH1 IH2]; [lia | lia |].
        rewrite Er in IH1, IH2. cbn [fst snd] in IH1, IH2.
        rewrite IH1, Hs1. split; [reflexivity|].
        intros H. rewrite IH2 by lia. lia.
    + destruct (runOps ops (snd (Update now id upd s))) as [ids s2] eqn:Er.
      cbn [fst snd].
      destruct (IH (snd (Update now id upd s))) as [IH1 IH2];
        rewrite ?nextID_Update; try assumption.
      rewrite Er, ?nextID_Update in IH1, IH2. split; assumption.
    + destruct (runOps ops (snd (Delete id s))) as [ids s2] eqn:Er.
      cbn [fst snd].
      destruct (IH (snd (Delete id s))) as [IH1 IH2];
        rewrite ?nextID_Delete; try assumption.
      rewrite Er, ?nextID_Delete in IH1, IH2. split; assumption.
Qed.

(** C2. Along every sequence of store operations that stays within the
    range of [int], the IDs issued by [Create] are 1, 2, 3, ... in this
    order: they start at 1, are strictly increasing, and no ID is issued
    twice, whatever has been deleted in between. *)
Theorem issued_ids_strictly_increasing (ops : list StoreOp) :
  Z.of_nat (countCreates ops) <= maxInt ->
  let ids := fst (runOps ops NewWorkoutStore) in
  ids = seqZ 1 (Z.of_nat (countCreates ops))
  /\ (forall a, head ids = Some a -> a = 1)
  /\ (forall (i j : nat) a b,
        (i < j)%nat -> ids !! i = Some a -> ids !! j = Some b -> a < b)
  /\ NoDup ids.
Proof.
  intros Hn ids.
  assert (Hids : ids = seqZ 1 (Z.of_nat (countCreates ops))).
  { subst ids. apply (runOps_issued ops NewWorkoutStore); cbn [nextID NewWorkoutStore];
      unfold minInt, maxInt in *; lia. }
  split; [exact Hids|]. rewrite Hids. split; [|split].
  - intros a Ha. rewrite head_lookup in Ha. apply lookup_seqZ in Ha. lia.
  - intros i j a b Hij Ha Hb. apply lookup_seqZ in Ha, Hb. lia.
  - apply NoDup_seqZ.
Qed.

(** C4. On a store reached by any sequence of operations that leaves an ID
    to issue, [Create] returns a record (it has no failure result), takes
    none of its ID from the candidate, gives it the next ID in sequence,
    which is positive, stamps createdAt and updatedAt with the same clock
    reading, keeps the other fields, and stores the record: [Get] on the
    returned ID finds exactly the returned record. *)
Theorem create_then_get (ops : list StoreOp) (now : Time) (w : Workout) :
  Z.of_nat (countCreates ops) < maxInt ->
  let s := snd (runOps ops NewWorkoutStore) in
  let r := fst (Create now w s) in
  let s' := snd (Create now w s) in
  (forall id, Create now (setID id w) s = Create now w s)
  /\ ID r = nextID s
  /\ ID r = Z.of_nat (countCreates ops) + 1
  /\ 0 < ID r
  /\ CreatedAt r = now /\ UpdatedAt r = now /\ CreatedAt r = UpdatedAt r
  /\ Title r = Title w /\ Date r = Date w /\ Notes r = Notes w
  /\ Exercises r = Exercises w
  /\ Get (ID r) s' = Some r.
Proof.
  intros Hn s r s'.
  assert (Hid : nextID s = Z.of_nat (countCreates ops) + 1).
  { subst s.
    destruct (runOps_issued ops NewWorkoutStore) as [_ H];
      cbn [nextID NewWorkoutStore] in *; unfold minInt, maxInt in *; try lia. }
  subst r s'. cbn [Create fst snd ID CreatedAt UpdatedAt Title Date Notes Exercises].
  repeat split; try reflexivity; try lia.
  unfold Get. cbn [workouts]. apply lookup_insert_eq.
Qed.

(** ** The handlers, branch by branch *)

(** The five ways out of the POST branch of [WorkoutsHandler.ServeHTTP]. *)
Lemma post_result now w r s req :
  Method r = lit "POST" -> ReadJSON_create r = Some req ->
  let title := TrimSpace (cTitle req) in
  let date := TrimSpace (cDate req) in
  let res := WorkoutsHandler_ServeHTTP now w r s in
  (title = [] -> res = (WriteError w StatusBadRequest (lit "title is required"), s))
  /\ (title <> [] -> date = [] ->
      res = (WriteError w StatusBadRequest (lit "date is required (YYYY-MM-DD)"), s))
  /\ (title <> [] -> date <> [] -> parseDate date = None ->
      res = (WriteError w StatusBadRequest (lit "date must be YYYY-MM-DD"), s))
  /\ (title <> [] -> date <> [] -> parseDate date <> None ->
      validateExercises (cExercises req) <> [] ->
      res = (WriteError w StatusBadRequest (validateExercises (cExercises req)), s))
  /\ (candidateOK title date (cExercises req) ->
      let wk := {| ID := 0; Title := title; Date := date;
                   Notes := TrimSpace (cNotes req); Exercises := cExercises req;
                   CreatedAt := zeroTime; UpdatedAt := zeroTime |} in
      res = (WriteJSON w StatusCreated (JSONWorkout (fst (Create now wk s))),
             snd (Create now wk s))).
Proof.
  intros Hm Hj title date res. subst res. unfold WorkoutsHandler_ServeHTTP.
  rewrite Hm, Hj.
  change (streq (lit "POST") (lit "GET")) with false.
  change (streq (lit "POST") (lit "POST")) with true.
  cbv iota. fold title date.
  destruct (streq_nil_case title) as [[Ht ->]|[Ht ->]].
  { repeat split; solve [reflexivity | intros; contradiction
                         | intros (? & _); contradiction]. }
  destruct (streq_nil_case date) as [[Hd ->]|[Hd ->]].
  { repeat split; solve [reflexivity | intros; contradiction
                         | intros (_ & ? & _); contradiction]. }
  destruct (parseDate date) as [ymd|] eqn:Hp.
  2:{ repeat split; solve [reflexivity | intros; contradiction | intros; congruence
                           | intros (_ & _ & ? & _); congruence]. }
  destruct (streq_nil_case (validateExercises (cExercises req))) as [[Hv ->]|[Hv ->]].
  - repeat split; solve [reflexivity | intros; contradiction | intros; congruence].
  - repeat split; solve [reflexivity | intros; contradiction | intros; congruence
                         | intros (_ & _ & _ & ?); contradiction].
Qed.

(** The five ways out of the PUT branch of [WorkoutByIDHandler.ServeHTTP]
    once the record has been found. *)
Lemma put_result now w r s id cur req :
  Method r = lit "PUT" -> parseWorkoutID (URLPath r) = Some id ->
  ReadJSON_update r = Some req -> Get id s = Some cur ->
  let m := mergePatch cur req in
  let res := WorkoutByIDHandler_ServeHTTP now w r s in
  (Title m = [] ->
     res = (WriteError w StatusBadRequest (lit "title cannot be empty"), s))
  /\ (Title m <> [] -> Date m = [] ->
      res = (WriteError w StatusBadRequest (lit "date cannot be empty"), s))
  /\ (Title m <> [] -> Date m <> [] -> parseDate (Date m) = None ->
      res = (WriteError w StatusBadRequest (lit "date must be YYYY-MM-DD"), s))
  /\ (Title m <> [] -> Date m <> [] -> parseDate (Date m) <> None ->
      validateExercises (Exercises m) <> [] ->
      res = (WriteError w StatusBadRequest (validateExercises (Exercises m)), s))
  /\ (candidateOK (Title m) (Date m) (Exercises m) ->
      res = (WriteJSON w StatusOK (JSONWorkout (withUpdatedAt now m)),
             {| nextID := nextID s;
                workouts := <[id := withUpdatedAt now m]> (workouts s) |})).
Proof.
  intros Hm Hp Hj Hg m res. subst res. unfold WorkoutByIDHandler_ServeHTTP.
  rewrite Hp, Hm, Hj, Hg.
  change (streq (lit "PUT") (lit "GET")) with false.
  change (streq (lit "PUT") (lit "PUT")) with true.
  cbv iota. fold m.
  destruct (streq_nil_case (Title m)) as [[Ht ->]|[Ht ->]].
  { repeat split; solve [reflexivity | intros; contradiction
                         | intros (? & _); contradiction]. }
  destruct (streq_nil_case (Date m)) as [[Hd ->]|[Hd ->]].
  { repeat split; solve [reflexivity | intros; contradiction
                         | intros (_ & ? & _); contradiction]. }
  destruct (parseDate (Date m)) as [ymd|] eqn:Hpd.
  2:{ repeat split; solve [reflexivity | intros; contradiction | intros; congruence
                           | intros (_ & _ & ? & _); congruence]. }
  destruct (streq_nil_case (validateExercises (Exercises m))) as [[Hv ->]|[Hv ->]].
  - unfold Update. unfold Get in Hg. rewrite Hg.
    repeat split; solve [reflexivity | intros; contradiction | intros; congruence].
  - repeat split; solve [reflexivity | intros; contradiction | intros; congruence
                         | intros (_ & _ & _ & ?); contradiction].
Qed.

(** ** The merged candidate *)

Lemma mergePatch_fields cur req :
  let m := mergePatch cur req in
  ID m = ID cur /\ CreatedAt m = CreatedAt cur /\ UpdatedAt m = UpdatedAt cur
  /\ Title m = TrimSpace (match uTitle req with
                          | Some t => TrimSpace t | None => Title cur end)
  /\ Date m = TrimSpace (match uDate req with
                         | Some d => TrimSpace d | None => Date cur end)
  /\ Notes m = match uNotes req with Some n => TrimSpace n | None => Notes cur end
  /\ Exercises m = match uExercises req with Some e => e | None => Exercises cur end.
Proof.
  destruct req as [[t|] [d|] [n|] [e|]]; repeat split; reflexivity.
Qed.

Lemma mergePatch_trimmed cur req :
  TrimSpace (Title (mergePatch cur req)) = Title (mergePatch cur req)
  /\ TrimSpace (Date (mergePatch cur req)) = Date (mergePatch cur req).
Proof.
  destruct (mergePatch_fields cur req) as (_ & _ & _ & -> & -> & _).
  split; apply TrimSpace_idempotent.
Qed.

Lemma mergePatch_empty cur :
  TrimSpace (Title cur) = Title cur -> TrimSpace (Date cur) = Date cur ->
  mergePatch cur emptyPatch = cur.
Proof.
  intros Ht Hd. destruct cur as [i t d n e c u].
  unfold mergePatch, emptyPatch, setTitle, setDate.
  cbn [uTitle uDate uNotes uExercises ID Title Date Notes Exercises
       CreatedAt UpdatedAt] in *.
  rewrite Ht, Hd. reflexivity.
Qed.

(** ** Every stored record is valid *)

Lemma storeValid_insert P s k wk nid :
  storeValid P s -> recordValid wk -> P (UpdatedAt wk) ->
  storeValid P {| nextID := nid; workouts := <[k := wk]> (workouts s) |}.
Proof.
  intros Hs Hv Hp k' wk'. cbn [workouts]. rewrite lookup_insert.
  case_decide; [intros [= <-]; split; assumption | apply Hs].
Qed.

Lemma WorkoutsHandler_storeValid P now w r s :
  storeValid P s -> P now ->
  storeValid P (snd (WorkoutsHandler_ServeHTTP now w r s)).
Proof.
  intros Hs Hnow. unfold WorkoutsHandler_ServeHTTP.
  destruct (streq (Method r) (lit "GET")); [exact Hs|].
  destruct (streq (Method r) (lit "POST")); [|exact Hs].
  destruct (ReadJSON_create r) as [req|]; [|exact Hs].
  cbv zeta.
  destruct (streq_nil_case (TrimSpace (cTitle req))) as [[_ ->]|[Ht ->]]; [exact Hs|].
  destruct (streq_nil_case (TrimSpace (cDate req))) as [[_ ->]|[Hd ->]]; [exact Hs|].
  destruct (parseDate (TrimSpace (cDate req))) as [ymd|] eqn:Hp; [|exact Hs].
  destruct (streq_nil_case (validateExercises (cExercises req)))
    as [[Hv ->]|[_ ->]]; [|exact Hs].
  cbn [negb Create snd ID UpdatedAt].
  apply storeValid_insert; [exact Hs | | exact Hnow].
  unfold recordValid, candidateOK.
  cbn [Title Date Exercises]. rewrite !TrimSpace_idempotent, Hp.
  repeat split; try assumption; try reflexivity; discriminate.
Qed.

Lemma WorkoutByIDHandler_storeValid P now w r s :
  storeValid P s -> P now ->
  storeValid P (snd (WorkoutByIDHandler_ServeHTTP now w r s)).
Proof.
  intros Hs Hnow. unfold WorkoutByIDHandler_ServeHTTP.
  destruct (parseWorkoutID (URLPath r)) as [id|]; [|exact Hs].
  destruct (streq (Method r) (lit "GET")).
  { destruct (Get id s); exact Hs. }
  destruct (streq (Method r) (lit "PUT")).
  { destruct (ReadJSON_update r) as [req|]; [|exact Hs].
    destruct (Get id s) as [cur|] eqn:Hg; [|exact Hs].
    cbv zeta. set (m := mergePatch cur req).
    destruct (streq_nil_case (Title m)) as [[_ ->]|[Ht ->]]; [exact Hs|].
    destruct (streq_nil_case (Date m)) as [[_ ->]|[Hd ->]]; [exact Hs|].
    destruct (parseDate (Date m)) as [ymd|] eqn:Hp; [|exact Hs].
    destruct (streq_nil_case (validateExercises (Exercises m)))
      as [[Hv ->]|[_ ->]]; [|exact Hs].
    cbn [negb]. unfold Update. unfold Get in Hg. rewrite Hg. cbn [snd].
    apply storeValid_insert; [exact Hs | | exact Hnow].
    destruct (mergePatch_trimmed cur req) as [Htt Hdt]. fold m in Htt, Hdt.
    unfold recordValid, candidateOK. cbn [withUpdatedAt Title Date Exercises].
    rewrite Hp. repeat split; try assumption; discriminate. }
  destruct (streq (Method r) (lit "DELETE")); [|exact Hs].
  unfold Delete. destruct (workouts s !! id) eqn:Hl; [|exact Hs].
  cbn [snd]. intros k wk. cbn [workouts]. rewrite lookup_delete.
  case_decide; [discriminate | apply Hs].
Qed.

Lemma serve_storeValid P c s :
  storeValid P s -> P (callNow c) -> storeValid P (snd (serve c s)).
Proof.
  intros Hs Hnow. unfold serve, withCORS.
  destruct (streq (Method (callRequest c)) (lit "OPTIONS")); [exact Hs|].
  destruct (callRoute c); cbn [routeHandler].
  - exact Hs.
  - apply WorkoutsHandler_storeValid; assumption.
  - apply WorkoutByIDHandler_storeValid; assumption.
Qed.

Lemma serveAll_storeValid P cs s :
  storeValid P s -> Forall (fun c => P (callNow c)) cs ->
  storeValid P (serveAll cs s).
Proof.
  revert s. induction cs as [|c cs IH]; intros s Hs Hcs; cbn [serveAll].
  - exact Hs.
  - inversion Hcs; subst. apply IH; [apply serve_storeValid|]; assumption.
Qed.

Lemma NewWorkoutStore_storeValid P : storeValid P NewWorkoutStore.
Proof. intros k wk H. cbn in H. rewrite lookup_empty in H. discriminate. Qed.

(** ** Success and failure of the two write paths *)

Lemma put_success now w r s id cur req :
  Method r = lit "PUT" -> parseWorkoutID (URLPath r) = Some id ->
  ReadJSON_update r = Some req -> Get id s = Some cur ->
  let m := mergePatch cur req in
  let res := WorkoutByIDHandler_ServeHTTP now w r s in
  (candidateOK (Title m) (Date m) (Exercises m)
   /\ res = (WriteJSON w StatusOK (JSONWorkout (withUpdatedAt now m)),
             {| nextID := nextID s;
                workouts := <[id := withUpdatedAt now m]> (workouts s) |}))
  \/ (~ candidateOK (Title m) (Date m) (Exercises m)
      /\ status (fst res) = StatusBadRequest
      /\ (exists msg, body (fst res) = JSONError msg)
      /\ snd res = s).
Proof.
  intros Hm Hp Hj Hg m res.
  destruct (put_result now w r s id cur req Hm Hp Hj Hg) as (R1 & R2 & R3 & R4 & R5).
  fold m res in R1, R2, R3, R4, R5.
  destruct (decide (Title m = [])) as [Ht|Ht].
  { right. rewrite (R1 Ht). split; [intros (? & _); contradiction|].
    repeat split; eauto. }
  destruct (decide (Date m = [])) as [Hd|Hd].
  { right. rewrite (R2 Ht Hd). split; [intros (_ & ? & _); contradiction|].
    repeat split; eauto. }
  destruct (parseDate (Date m)) as [ymd|] eqn:Hpd.
  2:{ right. rewrite (R3 Ht Hd eq_refl). split; [intros (_ & _ & ? & _); congruence|].
      repeat split; eauto. }
  destruct (decide (validateExercises (Exercises m) = [])) as [Hv|Hv].
  - left. assert (Hok : candidateOK (Title m) (Date m) (Exercises m)).
    { repeat split; try assumption. congruence. }
    split; [exact Hok | exact (R5 Hok)].
  - right. rewrite R4; try assumption; try congruence.
    split; [intros (_ & _ & _ & ?); contradiction|]. repeat split; eauto.
Qed.

Lemma post_success now w r s req :
  Method r = lit "POST" -> ReadJSON_create r = Some req ->
  let title := TrimSpace (cTitle req) in
  let date := TrimSpace (cDate req) in
  let res := WorkoutsHandler_ServeHTTP now w r s in
  let wk := {| ID := 0; Title := title; Date := date;
               Notes := TrimSpace (cNotes req); Exercises := cExercises req;
               CreatedAt := zeroTime; UpdatedAt := zeroTime |} in
  (candidateOK title date (cExercises req)
   /\ res = (WriteJSON w StatusCreated (JSONWorkout (fst (Create now wk s))),
             snd (Create now wk s)))
  \/ (~ candidateOK title date (cExercises req)
      /\ status (fst res) = StatusBadRequest
      /\ (exists msg, body (fst res) = JSONError msg)
      /\ snd res = s).
Proof.
  intros Hm Hj title date res wk.
  destruct (post_result now w r s req Hm Hj) as (R1 & R2 & R3 & R4 & R5).
  fold title date res in R1, R2, R3, R4, R5.
  destruct (decide (title = [])) as [Ht|Ht].
  { right. rewrite (R1 Ht). split; [intros (? & _); contradiction|].
    repeat split; eauto. }
  destruct (decide (date = [])) as [Hd|Hd].
  { right. rewrite (R2 Ht Hd). split; [intros (_ & ? & _); contradiction|].
    repeat split; eauto. }
  destruct (parseDate date) as [ymd|] eqn:Hpd.
  2:{ right. rewrite (R3 Ht Hd eq_refl). split; [intros (_ & _ & ? & _); congruence|].
      repeat split; eauto. }
  destruct (decide (validateExercises (cExercises req) = [])) as [Hv|Hv].
  - left. assert (Hok : candidateOK title date (cExercises req)).
    { repeat split; try assumption. congruence. }
    split; [exact Hok | exact (R5 Hok)].
  - right. rewrite R4; try assumption; try congruence.
    split; [intros (_ & _ & _ & ?); contradiction|]. repeat split; eauto.
Qed.

(** ** Updates *)

(** C1. A PUT on an existing record whose merged candidate fails
    validation (empty trimmed title, empty or malformed date, or a failing
    exercise list) is answered 400 with an error message and leaves the
    store exactly as it was; and every PUT on an existing record either
    leaves the store as it was or writes the whole merged candidate, which
    is then valid, under that ID. *)
Theorem update_validation_atomic now w r s id cur req :
  Method r = lit "PUT" -> parseWorkoutID (URLPath r) = Some id ->
  ReadJSON_update r = Some req -> Get id s = Some cur ->
  let m := mergePatch cur req in
  let res := WorkoutByIDHandler_ServeHTTP now w r s in
  (Title m = [] \/ Date m = [] \/ parseDate (Date m) = None
   \/ validateExercises (Exercises m) <> [] ->
   status (fst res) = StatusBadRequest
   /\ (exists msg, body (fst res) = JSONError msg)
   /\ snd res = s)
  /\ (snd res = s
      \/ (recordValid (withUpdatedAt now m)
          /\ status (fst res) = StatusOK
          /\ snd res = {| nextID := nextID s;
                          workouts := <[id := withUpdatedAt now m]> (workouts s) |})).
Proof.
  intros Hm Hp Hj Hg m res. subst m res.
  destruct (put_success now w r s id cur req Hm Hp Hj Hg)
    as [[Hok Hres] | (Hbad & Hst & Hmsg & Hsame)].
  - split.
    + destruct Hok as (Ht & Hd & Hpd & Hv).
      intros [H|[H|[H|H]]]; contradiction.
    + right. rewrite Hres. split; [|split; reflexivity].
      destruct (mergePatch_trimmed cur req) as [Htt Hdt].
      split; [exact Htt | split; [exact Hdt | exact Hok]].
  - split; [intros _; auto | left; exact Hsame].
Qed.

(** C3. On a store reached through the handlers, a successful PUT returns
    and stores a record that keeps the ID and createdAt of the current one,
    takes each field present in the patch (trimmed for title, date and
    notes; the exercise list as a whole), keeps each absent field as it
    was, and carries the clock reading of the update as updatedAt, which
    is strictly greater than before when the clock has advanced since the
    earlier requests. *)
Theorem patch_merge (cs : list Call) now w r id cur req :
  let s := serveAll cs NewWorkoutStore in
  Method r = lit "PUT" -> parseWorkoutID (URLPath r) = Some id ->
  ReadJSON_update r = Some req -> Get id s = Some cur ->
  let res := WorkoutByIDHandler_ServeHTTP now w r s in
  status (fst res) = StatusOK ->
  exists final,
    body (fst res) = JSONWorkout final
    /\ Get id (snd res) = Some final
    /\ ID final = ID cur /\ CreatedAt final = CreatedAt cur
    /\ Title final = match uTitle req with Some t => TrimSpace t | None => Title cur end
    /\ Date final = match uDate req with Some d => TrimSpace d | None => Date cur end
    /\ Notes final = match uNotes req with Some n => TrimSpace n | None => Notes cur end
    /\ Exercises final =
         match uExercises req with Some e => e | None => Exercises cur end
    /\ UpdatedAt final = now
    /\ (Forall (fun c => callNow c < now) cs -> UpdatedAt cur < UpdatedAt final).
Proof.
  intros s Hm Hp Hj Hg res Hst. subst res.
  destruct (put_success now w r s id cur req Hm Hp Hj Hg)
    as [[Hok Hres] | (_ & Hst' & _)].
  2:{ rewrite Hst' in Hst. discriminate. }
  assert (Hcur : recordValid cur).
  { eapply (serveAll_storeValid (fun _ => True) cs NewWorkoutStore).
    - apply NewWorkoutStore_storeValid.
    - apply Forall_forall. intros; exact I.
    - exact Hg. }
  destruct Hcur as (Htt & Hdt & _).
  destruct (mergePatch_fields cur req) as (Fi & Fc & Fu & Ft & Fd & Fn & Fe).
  exists (withUpdatedAt now (mergePatch cur req)). rewrite Hres.
  unfold Get.
  cbn [fst snd body WriteJSON withUpdatedAt ID Title Date Notes Exercises
       CreatedAt UpdatedAt workouts].
  rewrite lookup_insert_eq.
  repeat split; try assumption.
  - rewrite Ft. destruct (uTitle req); [apply TrimSpace_idempotent | exact Htt].
  - rewrite Fd. destruct (uDate req); [apply TrimSpace_idempotent | exact Hdt].
  - intros Hclock.
    eapply (serveAll_storeValid (fun t => t < now) cs NewWorkoutStore).
    + apply NewWorkoutStore_storeValid.
    + exact Hclock.
    + exact Hg.
Qed.

(** C10. On a store reached through the handlers, a PUT whose body is the
    empty object is answered 200 and returns and stores the current record
    with id, title, date, notes, exercises and createdAt as they were and
    updatedAt set to the clock reading of the update. *)
Theorem empty_patch_refreshes (cs : list Call) now w r id cur :
  let s := serveAll cs NewWorkoutStore in
  Method r = lit "PUT" -> parseWorkoutID (URLPath r) = Some id ->
  ReadJSON_update r = Some emptyPatch -> Get id s = Some cur ->
  let res := WorkoutByIDHandler_ServeHTTP now w r s in
  status (fst res) = StatusOK
  /\ exists final,
       body (fst res) = JSONWorkout final
       /\ Get id (snd res) = Some final
       /\ ID final = ID cur /\ Title final = Title cur /\ Date final = Date cur
       /\ Notes final = Notes cur /\ Exercises final = Exercises cur
       /\ CreatedAt final = CreatedAt cur
       /\ UpdatedAt final = now.
Proof.
  intros s Hm Hp Hj Hg res. subst res.
  assert (Hcur : recordValid cur).
  { eapply (serveAll_storeValid (fun _ => True) cs NewWorkoutStore).
    - apply NewWorkoutStore_storeValid.
    - apply Forall_forall. intros; exact I.
    - exact Hg. }
  destruct Hcur as (Htt & Hdt & Hok).
  destruct (put_result now w r s id cur emptyPatch Hm Hp Hj Hg) as (_ & _ & _ & _ & R5).
  rewrite (mergePatch_empty cur Htt Hdt) in R5.
  rewrite (R5 Hok). split; [reflexivity|].
  exists (withUpdatedAt now cur).
  unfold Get.
  cbn [fst snd body WriteJSON withUpdatedAt ID Title Date Notes Exercises
       CreatedAt UpdatedAt workouts].
  rewrite lookup_insert_eq. repeat split; reflexivity.
Qed.

(** C6 (amended). The update path accepts a merged candidate exactly when
    the create path accepts a request carrying the same fields, and both
    answer 400 otherwise; a malformed date and a failing exercise list get
    the same message on both paths, whereas an empty title is reported as
    "title cannot be empty" by the update path and "title is required" by
    the create path, and an empty date as "date cannot be empty" and
    "date is required (YYYY-MM-DD)". *)
Theorem update_validates_like_create now w r s id cur req now' w' r' s' :
  Method r = lit "PUT" -> parseWorkoutID (URLPath r) = Some id ->
  ReadJSON_update r = Some req -> Get id s = Some cur ->
  Method r' = lit "POST" ->
  ReadJSON_create r' = Some (requestOf (mergePatch cur req)) ->
  let m := mergePatch cur req in
  let put := fst (WorkoutByIDHandler_ServeHTTP now w r s) in
  let post := fst (WorkoutsHandler_ServeHTTP now' w' r' s') in
  (status put = StatusOK <-> status post = StatusCreated)
  /\ (status put = StatusOK
      \/ (status put = StatusBadRequest /\ status post = StatusBadRequest))
  /\ (Title m = [] ->
      body put = JSONError (lit "title cannot be empty")
      /\ body post = JSONError (lit "title is required"))
  /\ (Title m <> [] -> Date m = [] ->
      body put = JSONError (lit "date cannot be empty")
      /\ body post = JSONError (lit "date is required (YYYY-MM-DD)"))
  /\ (Title m <> [] -> Date m <> [] -> status put = StatusBadRequest ->
      body put = body post).
Proof.
  intros Hm Hp Hj Hg Hm' Hj' m put post. subst put post.
  destruct (put_result now w r s id cur req Hm Hp Hj Hg) as (U1 & U2 & U3 & U4 & U5).
  destruct (post_result now' w' r' s' _ Hm' Hj') as (C1 & C2 & C3 & C4 & C5).
  destruct (mergePatch_trimmed cur req) as [Htt Hdt].
  cbn [requestOf cTitle cDate cNotes cExercises] in C1, C2, C3, C4, C5.
  rewrite ?Htt, ?Hdt in C1. rewrite ?Htt, ?Hdt in C2. rewrite ?Htt, ?Hdt in C3.
  rewrite ?Htt, ?Hdt in C4. rewrite ?Htt, ?Hdt in C5.
  unfold m in *. clear m. set (m := mergePatch cur req) in *.
  destruct (decide (Title m = [])) as [Ht|Ht].
  { rewrite (U1 Ht), (C1 Ht). cbn [fst status body WriteError WriteJSON].
    repeat split; try discriminate; try contradiction; auto. }
  destruct (decide (Date m = [])) as [Hd|Hd].
  { rewrite (U2 Ht Hd), (C2 Ht Hd). cbn [fst status body WriteError WriteJSON].
    repeat split; try discriminate; try contradiction; auto. }
  destruct (parseDate (Date m)) as [ymd|] eqn:Hpd.
  2:{ rewrite (U3 Ht Hd eq_refl), (C3 Ht Hd eq_refl).
      cbn [fst status body WriteError WriteJSON].
      repeat split; try discriminate; try contradiction; auto. }
  destruct (decide (validateExercises (Exercises m) = [])) as [Hv|Hv].
  - assert (Hok : candidateOK (Title m) (Date m) (Exercises m)).
    { repeat split; try assumption. congruence. }
    rewrite (U5 Hok), (C5 Hok). cbn [fst status body WriteError WriteJSON].
    repeat split; try discriminate; try contradiction; auto.
  - rewrite U4, C4; try assumption; try congruence.
    cbn [fst status body WriteError WriteJSON].
    repeat split; try discriminate; try contradiction; auto.
Qed.

(** ** Creation *)

(** C7 (amended). A successful create returns and stores a record whose
    title, date and notes are the request's trimmed, with a non-empty
    title, and whose exercise list is the request's exactly as submitted:
    exercise names are not trimmed, each of them is non-blank. *)
Theorem create_stores_request now w r s req :
  Method r = lit "POST" -> ReadJSON_create r = Some req ->
  let res := WorkoutsHandler_ServeHTTP now w r s in
  status (fst res) = StatusCreated ->
  exists rec,
    body (fst res) = JSONWorkout rec
    /\ Get (ID rec) (snd res) = Some rec
    /\ Title rec = TrimSpace (cTitle req) /\ Title rec <> []
    /\ Date rec = TrimSpace (cDate req)
    /\ Notes rec = TrimSpace (cNotes req)
    /\ Exercises rec = cExercises req
    /\ Forall (fun ex => TrimSpace (Name ex) <> []) (Exercises rec).
Proof.
  intros Hm Hj res Hst. subst res.
  destruct (post_success now w r s req Hm Hj) as [[Hok Hres] | (_ & Hst' & _)].
  2:{ rewrite Hst' in Hst. discriminate. }
  destruct Hok as (Ht & _ & _ & Hv).
  rewrite Hres. eexists. split; [reflexivity|].
  unfold Get.
  cbn [fst snd Create ID Title Date Notes Exercises workouts].
  rewrite lookup_insert_eq. repeat split; try assumption; try reflexivity.
  apply validateExercises_accepts in Hv.
  eapply Forall_impl; [exact Hv|]. intros ex (Hn & _). exact Hn.
Qed.

(** C8 (amended). On the create path, a request with a non-blank title
    whose trimmed date is empty is answered 400 with the message
    "date is required (YYYY-MM-DD)", and one whose trimmed date is not
    empty but does not parse as a calendar date in the layout YYYY-MM-DD is
    answered 400 with the message "date must be YYYY-MM-DD"; neither
    changes the store. *)
Theorem create_date_errors now w r s req :
  Method r = lit "POST" -> ReadJSON_create r = Some req ->
  TrimSpace (cTitle req) <> [] ->
  let date := TrimSpace (cDate req) in
  let res := WorkoutsHandler_ServeHTTP now w r s in
  (date = [] ->
     status (fst res) = StatusBadRequest
     /\ body (fst res) = JSONError (lit "date is required (YYYY-MM-DD)")
     /\ snd res = s)
  /\ (date <> [] -> parseDate date = None ->
     status (fst res) = StatusBadRequest
     /\ body (fst res) = JSONError (lit "date must be YYYY-MM-DD")
     /\ snd res = s).
Proof.
  intros Hm Hj Ht date res. subst date res.
  destruct (post_result now w r s req Hm Hj) as (_ & R2 & R3 & _).
  split.
  - intros Hd. rewrite (R2 Ht Hd). repeat split; reflexivity.
  - intros Hd Hp. rewrite (R3 Ht Hd Hp). repeat split; reflexivity.
Qed.

(** ** Methods *)

(** C9 (amended). [WorkoutsHandler] answers every method other than GET
    and POST, and [WorkoutByIDHandler] on a path with a parsable positive
    id every method other than GET, PUT and DELETE, with 405 "Method not
    allowed", leaving the store unchanged; [HealthHandler] answers 200 to
    every method; and behind the CORS wrapper an OPTIONS request is
    answered 204 without reaching the handler, any other request goes to
    the handler. *)
Theorem unsupported_method now w r s :
  (status (fst (HealthHandler_ServeHTTP now w r s)) = StatusOK
   /\ snd (HealthHandler_ServeHTTP now w r s) = s)
  /\ (Method r <> lit "GET" -> Method r <> lit "POST" ->
      WorkoutsHandler_ServeHTTP now w r s =
        (WriteError w StatusMethodNotAllowed (lit "Method not allowed"), s))
  /\ (forall id, parseWorkoutID (URLPath r) = Some id ->
      Method r <> lit "GET" -> Method r <> lit "PUT" -> Method r <> lit "DELETE" ->
      WorkoutByIDHandler_ServeHTTP now w r s =
        (WriteError w StatusMethodNotAllowed (lit "Method not allowed"), s))
  /\ (forall next : Handler,
      (Method r = lit "OPTIONS" ->
         status (fst (withCORS next now w r s)) = StatusNoContent
         /\ body (fst (withCORS next now w r s)) = body w
         /\ snd (withCORS next now w r s) = s)
      /\ (Method r <> lit "OPTIONS" ->
          exists w', withCORS next now w r s = next now w' r s)).
Proof.
  split; [split; reflexivity|]. split; [|split].
  - intros Hg Hp. unfold WorkoutsHandler_ServeHTTP.
    apply streq_false in Hg, Hp. rewrite Hg, Hp. reflexivity.
  - intros id Hid Hg Hp Hd. unfold WorkoutByIDHandler_ServeHTTP.
    apply streq_false in Hg, Hp, Hd. rewrite Hid, Hg, Hp, Hd. reflexivity.
  - intros next. unfold withCORS. split.
    + intros Ho. apply streq_true in Ho. rewrite Ho. repeat split; reflexivity.
    + intros Ho. apply streq_false in Ho. rewrite Ho. eexists. reflexivity.
Qed.

(** ** The properties at sample requests *)

Lemma update_validation_atomic_witness :
  let res := WorkoutByIDHandler_ServeHTTP 200 newResponseWriter
               (putRequest (lit "/workouts/1") blankTitlePatch) pushDayStore in
  status (fst res) = StatusBadRequest
  /\ (exists msg, body (fst res) = JSONError msg)
  /\ snd res = pushDayStore.
Proof.
  assert (Hg : Get 1 pushDayStore = Some pushDayRecord) by (vm_compute; reflexivity).
  destruct (update_validation_atomic 200 newResponseWriter
              (putRequest (lit "/workouts/1") blankTitlePatch) pushDayStore
              1 pushDayRecord blankTitlePatch eq_refl eq_refl eq_refl Hg) as [H _].
  apply H. left. reflexivity.
Defined.

Lemma issued_ids_strictly_increasing_witness :
  fst (runOps createDeleteCreate NewWorkoutStore) = [1; 2]
  /\ NoDup (fst (runOps createDeleteCreate NewWorkoutStore)).
Proof.
  assert (Hn : Z.of_nat (countCreates createDeleteCreate) <= maxInt)
    by (vm_compute; discriminate).
  destruct (issued_ids_strictly_increasing createDeleteCreate Hn) as (H1 & _ & _ & H4).
  split; [exact H1 | exact H4].
Defined.

Lemma patch_merge_witness :
  exists final,
    Get 1 (snd (WorkoutByIDHandler_ServeHTTP 200 newResponseWriter
                  (putRequest (lit "/workouts/1") notesPatch) pushDayStore))
      = Some final
    /\ Title final = lit "Push Day" /\ Date final = lit "2026-01-16"
    /\ Notes final = lit "heavy"
    /\ UpdatedAt pushDayRecord < UpdatedAt final.
Proof.
  assert (Hg : Get 1 (serveAll pushDayCalls NewWorkoutStore) = Some pushDayRecord)
    by (vm_compute; reflexivity).
  assert (Hst : status (fst (WorkoutByIDHandler_ServeHTTP 200 newResponseWriter
                  (putRequest (lit "/workouts/1") notesPatch)
                  (serveAll pushDayCalls NewWorkoutStore))) = StatusOK)
    by (vm_compute; reflexivity).
  destruct (patch_merge pushDayCalls 200 newResponseWriter
              (putRequest (lit "/workouts/1") notesPatch) 1 pushDayRecord notesPatch
              eq_refl eq_refl eq_refl Hg Hst)
    as (final & _ & Hget & _ & _ & Ht & Hd & Hn & _ & _ & Hu).
  exists final. split; [exact Hget|]. split; [exact Ht|]. split; [exact Hd|].
  split; [exact Hn|]. apply Hu.
  repeat constructor.
Defined.

Lemma create_then_get_witness :
  let s := snd (runOps createDeleteCreate NewWorkoutStore) in
  let r := fst (Create 30 pushDayRecord s) in
  ID r = 3 /\ 0 < ID r /\ CreatedAt r = UpdatedAt r
  /\ Get (ID r) (snd (Create 30 pushDayRecord s)) = Some r.
Proof.
  assert (Hn : Z.of_nat (countCreates createDeleteCreate) < maxInt)
    by (vm_compute; reflexivity).
  destruct (create_then_get createDeleteCreate 30 pushDayRecord Hn)
    as (_ & _ & Hid & Hpos & _ & _ & Heq & _ & _ & _ & _ & Hget).
  repeat split; assumption.
Defined.

Lemma validateExercises_first_failure_witness :
  validateExercises squatNoReps =
    lit "reps must be > 0 for exercise: " ++ lit "Squat" ++ lit ", set index " ++ lit "0".
Proof.
  destruct (validateExercises_first_failure squatNoReps) as (_ & _ & H).
  destruct (H 0%nat _ eq_refl ltac:(constructor)) as (_ & _ & Hsets).
  destruct (Hsets ltac:(vm_compute; discriminate) 0%nat _ eq_refl ltac:(constructor))
    as [Hreps _].
  apply Hreps. vm_compute. discriminate.
Defined.

Lemma update_validates_like_create_witness :
  let put := fst (WorkoutByIDHandler_ServeHTTP 200 newResponseWriter
                    (putRequest (lit "/workouts/1") blankTitlePatch) pushDayStore) in
  let post := fst (WorkoutsHandler_ServeHTTP 200 newResponseWriter
                     (postRequest (requestOf (mergePatch pushDayRecord blankTitlePatch)))
                     pushDayStore) in
  status put = StatusBadRequest /\ status post = StatusBadRequest
  /\ body put = JSONError (lit "title cannot be empty")
  /\ body post = JSONError (lit "title is required").
Proof.
  assert (Hg : Get 1 pushDayStore = Some pushDayRecord) by (vm_compute; reflexivity).
  destruct (update_validates_like_create 200 newResponseWriter
              (putRequest (lit "/workouts/1") blankTitlePatch) pushDayStore
              1 pushDayRecord blankTitlePatch 200 newResponseWriter
              (postRequest (requestOf (mergePatch pushDayRecord blankTitlePatch)))
              pushDayStore eq_refl eq_refl eq_refl Hg eq_refl eq_refl)
    as (_ & Hst & Htitle & _).
  destruct Hst as [Hok | [Hput Hpost]].
  - vm_compute in Hok. discriminate Hok.
  - destruct (Htitle eq_refl) as [Hb1 Hb2]. repeat split; assumption.
Defined.

Lemma create_stores_request_witness :
  exists rec,
    Get (ID rec) (snd (WorkoutsHandler_ServeHTTP 100 newResponseWriter
                         (postRequest paddedSquat) NewWorkoutStore)) = Some rec
    /\ Title rec = lit "Leg Day"
    /\ Exercises rec = cExercises paddedSquat.
Proof.
  destruct (create_stores_request 100 newResponseWriter (postRequest paddedSquat)
              NewWorkoutStore paddedSquat eq_refl eq_refl
              ltac:(vm_compute; reflexivity))
    as (rec & _ & Hget & Ht & _ & _ & _ & He & _).
  exists rec. repeat split; assumption.
Defined.

Lemma create_date_errors_witness :
  let res := WorkoutsHandler_ServeHTTP 100 newResponseWriter
               (postRequest blankDate) NewWorkoutStore in
  status (fst res) = StatusBadRequest
  /\ body (fst res) = JSONError (lit "date is required (YYYY-MM-DD)")
  /\ snd res = NewWorkoutStore.
Proof.
  destruct (create_date_errors 100 newResponseWriter (postRequest blankDate)
              NewWorkoutStore blankDate eq_refl eq_refl
              ltac:(vm_compute; discriminate)) as [H _].
  apply H. reflexivity.
Defined.

Lemma unsupported_method_witness :
  WorkoutByIDHandler_ServeHTTP 100 newResponseWriter
    (bareRequest (lit "PATCH") (lit "/workouts/1")) pushDayStore
  = (WriteError newResponseWriter StatusMethodNotAllowed (lit "Method not allowed"),
     pushDayStore).
Proof.
  destruct (unsupported_method 100 newResponseWriter
              (bareRequest (lit "PATCH") (lit "/workouts/1")) pushDayStore)
    as (_ & _ & H & _).
  apply (H 1); [reflexivity | vm_compute; discriminate ..].
Defined.

Lemma empty_patch_refreshes_witness :
  let res := WorkoutByIDHandler_ServeHTTP 200 newResponseWriter
               (putRequest (lit "/workouts/1") emptyPatch) pushDayStore in
  status (fst res) = StatusOK
  /\ exists final, Get 1 (snd res) = Some final
       /\ Title final = Title pushDayRecord /\ UpdatedAt final = 200.
Proof.
  assert (Hg : Get 1 (serveAll pushDayCalls NewWorkoutStore) = Some pushDayRecord)
    by (vm_compute; reflexivity).
  destruct (empty_patch_refreshes pushDayCalls 200 newResponseWriter
              (putRequest (lit "/workouts/1") emptyPatch) 1 pushDayRecord
              eq_refl eq_refl eq_refl Hg)
    as (Hst & final & _ & Hget & _ & Ht & _ & _ & _ & _ & Hu).
  split; [exact Hst|]. exists final. repeat split; assumption.
Defined.

(** ** Where the code departs from the specification *)

(** C6. An empty merged title is reported with different messages by the
    update path and by the create path. *)
Lemma update_and_create_messages_differ :
  let m := mergePatch pushDayRecord blankTitlePatch in
  let put := fst (WorkoutByIDHandler_ServeHTTP 200 newResponseWriter
                    (putRequest (lit "/workouts/1") blankTitlePatch) pushDayStore) in
  let post := fst (WorkoutsHandler_ServeHTTP 200 newResponseWriter
                     (postRequest (requestOf m)) pushDayStore) in
  Get 1 pushDayStore = Some pushDayRecord
  /\ status put = StatusBadRequest /\ status post = StatusBadRequest
  /\ body put = JSONError (lit "title cannot be empty")
  /\ body post = JSONError (lit "title is required")
  /\ body put <> body post.
Proof.
  vm_compute. repeat split; discriminate.
Qed.

(** C7. A successful create stores an exercise name with the whitespace
    it was submitted with. *)
Lemma create_keeps_untrimmed_exercise_name :
  let res := WorkoutsHandler_ServeHTTP 100 newResponseWriter
               (postRequest paddedSquat) NewWorkoutStore in
  status (fst res) = StatusCreated
  /\ (map Name ∘ Exercises) <$> Get 1 (snd res) = Some [lit " Squat "]
  /\ TrimSpace (lit " Squat ") = lit "Squat"
  /\ lit " Squat " <> TrimSpace (lit " Squat ").
Proof.
  vm_compute. repeat split; discriminate.
Qed.

(** C8. The message for an empty date on the create path is not
    "date is required". *)
Lemma create_empty_date_message :
  let res := WorkoutsHandler_ServeHTTP 100 newResponseWriter
               (postRequest blankDate) NewWorkoutStore in
  status (fst res) = StatusBadRequest
  /\ body (fst res) = JSONError (lit "date is required (YYYY-MM-DD)")
  /\ body (fst res) <> JSONError (lit "date is required").
Proof.
  vm_compute. repeat split; discriminate.
Qed.

(** C9. [HealthHandler] answers a POST, which the interface does not list
    for /health, with 200 and not with 405. *)
Lemma health_answers_any_method :
  let res := HealthHandler_ServeHTTP 100 newResponseWriter
               (bareRequest (lit "POST") (lit "/health")) NewWorkoutStore in
  status (fst res) = 200 /\ status (fst res) <> StatusMethodNotAllowed.
Proof.
  vm_compute. split; [reflexivity | discriminate].
Qed.

(** * Further properties of the store *)

Lemma runOps_keysBelow ops s :
  keysBelow s -> 1 <= nextID s ->
  nextID s + Z.of_nat (countCreates ops) <= maxInt ->
  keysBelow (snd (runOps ops s))
  /\ nextID (snd (runOps ops s)) = nextID s + Z.of_nat (countCreates ops).
Proof.
  revert s. induction ops as [|op ops IH]; intros s Hk Hlo Hhi.
  - cbn. split; [exact Hk | lia].
  - rewrite countCreates_cons in *. cbn [runOps].
    destruct op as [now w | now id upd | id]; cbn [isCreate applyOp] in *.
    + cbn [Create ID].
      set (s1 := {| nextID := wrapInt (nextID s + 1); workouts := _ |}).
      assert (Hs1 : nextID s1 = nextID s + 1).
      { subst s1. cbn [nextID]. apply wrapInt_in_range. unfold minInt, maxInt in *. lia. }
      assert (Hk1 : keysBelow s1).
      { intros k wk. subst s1. cbn [workouts nextID]. rewrite lookup_insert.
        rewrite wrapInt_in_range by (unfold minInt, maxInt in *; lia).
        case_decide; [intros _; lia | intros Hl; apply Hk in Hl; lia]. }
      destruct (runOps ops s1) as [ids s2] eqn:Er. cbn [snd].
      destruct (IH s1 Hk1) as [IH1 IH2]; [lia | lia |].
      rewrite Er in IH1, IH2. cbn [snd] in IH1, IH2. split; [exact IH1 | lia].
    + destruct (runOps ops (snd (Update now id upd s))) as [ids s2] eqn:Er.
      cbn [snd].
      assert (Hk1 : keysBelow (snd (Update now id upd s))).
      { unfold Update. destruct (workouts s !! id) as [cur|] eqn:Hl; [|exact Hk].
        cbn [snd]. intros k wk. cbn [workouts nextID]. rewrite lookup_insert.
        case_decide; [subst k; intros _; exact (Hk _ _ Hl) | apply Hk]. }
      destruct (IH _ Hk1) as [IH1 IH2]; rewrite ?nextID_Update; try assumption.
      rewrite Er in IH1. rewrite Er, nextID_Update in IH2. split; assumption.
    + destruct (runOps ops (snd (Delete id s))) as [ids s2] eqn:Er.
      cbn [snd].
      assert (Hk1 : keysBelow (snd (Delete id s))).
      { unfold Delete. destruct (workouts s !! id) as [cur|] eqn:Hl; [|exact Hk].
        cbn [snd]. intros k wk. cbn [workouts nextID]. rewrite lookup_delete.
        case_decide; [discriminate | apply Hk]. }
      destruct (IH _ Hk1) as [IH1 IH2]; rewrite ?nextID_Delete; try assumption.
      rewrite Er in IH1. rewrite Er, nextID_Delete in IH2. split; assumption.
Qed.

Lemma NewWorkoutStore_keysBelow : keysBelow NewWorkoutStore.
Proof. intros k wk H. cbn in H. rewrite lookup_empty in H. discriminate. Qed.

(** X1. [Delete] reports whether the ID was present, removes exactly that
    record, and is idempotent: after a first [Delete] the record is gone, a
    second [Delete] of the same ID returns false and changes nothing; a
    [Delete] of a missing ID leaves the store as it is. *)
Theorem Delete_twice (id : Z) (s : WorkoutStore) :
  let r1 := Delete id s in
  let r2 := Delete id (snd r1) in
  (fst r1 = true <-> exists wk, Get id s = Some wk)
  /\ (fst r1 = false -> snd r1 = s)
  /\ Get id (snd r1) = None
  /\ (forall k, k <> id -> Get k (snd r1) = Get k s)
  /\ nextID (snd r1) = nextID s
  /\ fst r2 = false /\ snd r2 = snd r1.
Proof.
  unfold Delete, Get. destruct (workouts s !! id) as [wk|] eqn:Hl; cbn [fst snd workouts nextID].
  - rewrite lookup_delete_eq. cbn [fst snd].
    split; [split; [eauto | reflexivity]|]. split; [discriminate|].
    split; [reflexivity|]. split; [|repeat split; reflexivity].
    intros k Hk. apply lookup_delete_ne. congruence.
  - rewrite Hl. cbn [fst snd].
    split; [split; [discriminate | intros [wk Hwk]; discriminate]|].
    repeat split; reflexivity.
Qed.

(** X2. [Update] answers with what a following [Get] finds: for a missing
    ID it returns the error, applies nothing and leaves the store as it is;
    for a present ID it stores [upd] of the current record with updatedAt
    overwritten by the clock reading, whatever [upd] put there.  No other
    record and not the ID counter is touched. *)
Theorem Update_then_Get (now : Time) (id : Z) (upd : Workout -> Workout)
  (s : WorkoutStore) :
  let res := Update now id upd s in
  Get id (snd res) = fst res
  /\ (Get id s = None -> fst res = None /\ snd res = s)
  /\ (forall cur, Get id s = Some cur ->
        fst res = Some (withUpdatedAt now (upd cur))
        /\ UpdatedAt (withUpdatedAt now (upd cur)) = now)
  /\ (forall k, k <> id -> Get k (snd res) = Get k s)
  /\ nextID (snd res) = nextID s.
Proof.
  unfold Update, Get. destruct (workouts s !! id) as [cur|] eqn:Hl; cbn [fst snd workouts nextID].
  - rewrite lookup_insert_eq.
    split; [reflexivity|]. split; [discriminate|]. split; [|split; [|reflexivity]].
    + intros c [= <-]. split; reflexivity.
    + intros k Hk. apply lookup_insert_ne. congruence.
  - split; [exact Hl|]. split; [intros _; split; reflexivity|].
    split; [discriminate|]. split; reflexivity.
Qed.

(** X3. On a store built by any sequence of operations that leaves an ID
    to issue, the counter names an ID no record holds, so [Create] never
    overwrites: every record present before is still there unchanged, and
    the store holds exactly one record more. *)
Theorem Create_keeps_existing (ops : list StoreOp) (now : Time) (w : Workout) :
  Z.of_nat (countCreates ops) < maxInt ->
  let s := snd (runOps ops NewWorkoutStore) in
  let s' := snd (Create now w s) in
  Get (nextID s) s = None
  /\ (forall k wk, Get k s = Some wk -> Get k s' = Some wk)
  /\ size (workouts s') = S (size (workouts s))
  /\ length (List_ s') = S (length (List_ s)).
Proof.
  intros Hn s s'.
  destruct (runOps_keysBelow ops NewWorkoutStore NewWorkoutStore_keysBelow) as [Hk Hid];
    cbn [nextID NewWorkoutStore]; try lia.
  fold s in Hk, Hid.
  assert (Hfresh : workouts s !! nextID s = None).
  { destruct (workouts s !! nextID s) as [wk|] eqn:Hl; [|reflexivity].
    apply Hk in Hl. lia. }
  subst s'. unfold Get, List_. cbn [Create snd workouts ID].
  split; [exact Hfresh|]. split; [|split].
  - intros k wk Hl. rewrite lookup_insert_ne; [exact Hl|].
    intros <-. rewrite Hfresh in Hl. discriminate.
  - apply map_size_insert_None, Hfresh.
  - rewrite !length_fmap, !length_map_to_list. apply map_size_insert_None, Hfresh.
Qed.

(** X4. [List] returns exactly the stored records, each once per key
    holding it: a record is listed if and only if some ID finds it, the
    list is as long as the store is large, and it is empty exactly for the
    empty store. *)
Theorem List_elements (s : WorkoutStore) :
  (forall w, w ∈ List_ s <-> exists k, Get k s = Some w)
  /\ length (List_ s) = size (workouts s)
  /\ (List_ s = [] <-> workouts s = ∅).
Proof.
  unfold List_, Get. split; [|split].
  - intros w. rewrite list_elem_of_fmap. split.
    + intros [[k w'] [-> H]]. exists k. apply elem_of_map_to_list. exact H.
    + intros [k H]. exists (k, w). split; [reflexivity|].
      apply elem_of_map_to_list. exact H.
  - rewrite length_fmap. apply length_map_to_list.
  - rewrite <- map_to_list_empty_iff. split.
    + intros H. apply fmap_nil_inv in H. exact H.
    + intros ->. reflexivity.
Qed.

(** * Further properties of the handlers *)

(** Every request ends in one of five ways. *)
Lemma routeHandler_ends rt now w r s :
  let res := routeHandler rt now w r s in
  endsRead rt w r s res \/ endsError w s res \/ endsCreated rt now w r s res
  \/ endsUpdated rt now w r s res \/ endsDeleted rt w r s res.
Proof.
  assert (Herr : forall st msg,
    st = StatusBadRequest \/ st = StatusNotFound \/ st = StatusMethodNotAllowed ->
    endsError w s (WriteError w st msg, s)).
  { intros st msg Hst. split; [reflexivity|]. exists st, msg. split; [reflexivity | exact Hst]. }
  destruct rt; cbn [routeHandler].
  - left. split; [reflexivity|]. eexists. split; [reflexivity|]. left. split; reflexivity.
  - unfold WorkoutsHandler_ServeHTTP.
    destruct (streq (Method r) (lit "GET")) eqn:Hg.
    { left. apply streq_true in Hg. split; [reflexivity|]. eexists.
      split; [reflexivity|]. right. left. repeat split; [exact Hg]. }
    destruct (streq (Method r) (lit "POST")) eqn:Hp; [|right; left; apply Herr; tauto].
    apply streq_true in Hp.
    destruct (ReadJSON_create r) as [req|] eqn:Hj; [|right; left; apply Herr; tauto].
    cbv zeta.
    destruct (streq_nil_case (TrimSpace (cTitle req))) as [[_ ->]|[Ht ->]];
      [right; left; apply Herr; tauto|].
    destruct (streq_nil_case (TrimSpace (cDate req))) as [[_ ->]|[Hd ->]];
      [right; left; apply Herr; tauto|].
    destruct (parseDate (TrimSpace (cDate req))) as [ymd|] eqn:Hpd;
      [|right; left; apply Herr; tauto].
    destruct (streq_nil_case (validateExercises (cExercises req)))
      as [[Hv ->]|[_ ->]]; [|right; left; apply Herr; tauto].
    right. right. left. split; [reflexivity|]. split; [exact Hp|].
    exists req. split; [exact Hj|]. split.
    + repeat split; try assumption. congruence.
    + reflexivity.
  - unfold WorkoutByIDHandler_ServeHTTP.
    destruct (parseWorkoutID (URLPath r)) as [id|] eqn:Hid;
      [|right; left; apply Herr; tauto].
    destruct (streq (Method r) (lit "GET")) eqn:Hg.
    { apply streq_true in Hg.
      destruct (Get id s) as [wk|] eqn:Hget; [|right; left; apply Herr; tauto].
      left. split; [reflexivity|]. eexists. split; [reflexivity|]. right. right.
      split; [reflexivity|]. split; [exact Hg|]. exists id, wk. repeat split; assumption. }
    destruct (streq (Method r) (lit "PUT")) eqn:Hp.
    { apply streq_true in Hp.
      destruct (ReadJSON_update r) as [req|] eqn:Hj; [|right; left; apply Herr; tauto].
      destruct (Get id s) as [cur|] eqn:Hget; [|right; left; apply Herr; tauto].
      cbv zeta. set (m := mergePatch cur req).
      destruct (streq_nil_case (Title m)) as [[_ ->]|[Ht ->]];
        [right; left; apply Herr; tauto|].
      destruct (streq_nil_case (Date m)) as [[_ ->]|[Hd ->]];
        [right; left; apply Herr; tauto|].
      destruct (parseDate (Date m)) as [ymd|] eqn:Hpd;
        [|right; left; apply Herr; tauto].
      destruct (streq_nil_case (validateExercises (Exercises m)))
        as [[Hv ->]|[_ ->]]; [|right; left; apply Herr; tauto].
      cbn [negb]. unfold Update. unfold Get in Hget. rewrite Hget.
      right. right. right. left. split; [reflexivity|]. split; [exact Hp|].
      exists id, cur, req. fold m. repeat split; try assumption. congruence. }
    destruct (streq (Method r) (lit "DELETE")) eqn:Hd;
      [|right; left; apply Herr; tauto].
    apply streq_true in Hd. unfold Delete.
    destruct (workouts s !! id) as [wk|] eqn:Hl; [|right; left; apply Herr; tauto].
    right. right. right. right. split; [reflexivity|]. split; [exact Hd|].
    exists id, wk. repeat split; assumption.
Qed.

(** What [withCORS] does around a handler. *)
Lemma serve_unfold c s :
  (Method (callRequest c) = lit "OPTIONS"
   /\ serve c s = (WriteHeader StatusNoContent (corsWriter newResponseWriter), s))
  \/ (Method (callRequest c) <> lit "OPTIONS"
      /\ serve c s = routeHandler (callRoute c) (callNow c)
                       (corsWriter newResponseWriter) (callRequest c) s).
Proof.
  unfold serve, withCORS.
  destruct (streq (Method (callRequest c)) (lit "OPTIONS")) eqn:Ho.
  - left. apply streq_true in Ho. split; [exact Ho | reflexivity].
  - right. apply streq_false in Ho. split; [exact Ho | reflexivity].
Qed.

(** The five ways out, for a request served behind the CORS wrapper. *)
Lemma serve_ends c s :
  let w := corsWriter newResponseWriter in
  let res := serve c s in
  (Method (callRequest c) = lit "OPTIONS"
   /\ res = (WriteHeader StatusNoContent w, s))
  \/ (Method (callRequest c) <> lit "OPTIONS"
      /\ (endsRead (callRoute c) w (callRequest c) s res
          \/ endsError w s res
          \/ endsCreated (callRoute c) (callNow c) w (callRequest c) s res
          \/ endsUpdated (callRoute c) (callNow c) w (callRequest c) s res
          \/ endsDeleted (callRoute c) w (callRequest c) s res)).
Proof.
  intros w res. subst res.
  destruct (serve_unfold c s) as [[Ho ->]|[Ho ->]].
  - left. split; [exact Ho | reflexivity].
  - right. split; [exact Ho|]. apply routeHandler_ends.
Qed.

Ltac unfold_statuses :=
  unfold StatusOK, StatusCreated, StatusNoContent, StatusBadRequest,
         StatusNotFound, StatusMethodNotAllowed in *.


(** X6. A request answered with status 400 or above leaves the store
    exactly as it was, on every route and for every method: only a
    successful request writes. *)
Theorem serve_error_keeps_store (c : Call) (s : WorkoutStore) :
  400 <= status (fst (serve c s)) -> snd (serve c s) = s.
Proof.
  destruct (serve_ends c s)
    as [[_ ->]|[_ [(Hs & _)|[(Hs & _)
         |[(_ & _ & req & _ & _ & ->)|[(_ & _ & id & cur & req & _ & _ & _ & _ & ->)
         |(_ & _ & id & wk & _ & _ & ->)]]]]]];
    try (intros _; exact Hs);
    cbn [fst snd status WriteJSON WriteHeader]; unfold_statuses; intros H;
    solve [reflexivity | lia].
Qed.

(** X7. A request whose method is not POST, PUT or DELETE never changes
    the store, whatever its route, path and body. *)
Theorem serve_read_keeps_store (c : Call) (s : WorkoutStore) :
  Method (callRequest c) <> lit "POST" ->
  Method (callRequest c) <> lit "PUT" ->
  Method (callRequest c) <> lit "DELETE" ->
  snd (serve c s) = s.
Proof.
  intros Hpost Hput Hdel.
  destruct (serve_ends c s)
    as [[_ ->]|[_ [(Hs & _)|[(Hs & _)
         |[(_ & Hm & _)|[(_ & Hm & _)|(_ & Hm & _)]]]]]];
    solve [reflexivity | exact Hs | contradiction].
Qed.

(** X8. The ID counter moves only when a record is created: a request
    answered 201 returns a record carrying the counter's value as its ID
    and advances the counter by one (in 64-bit arithmetic); every other
    request, failed creates included, leaves the counter where it was. *)
Theorem serve_nextID (c : Call) (s : WorkoutStore) :
  let res := serve c s in
  (status (fst res) = StatusCreated ->
     nextID (snd res) = wrapInt (nextID s + 1)
     /\ exists rec, body (fst res) = JSONWorkout rec /\ ID rec = nextID s
          /\ Get (nextID s) (snd res) = Some rec)
  /\ (status (fst res) <> StatusCreated -> nextID (snd res) = nextID s).
Proof.
  intros res. subst res.
  destruct (serve_ends c s)
    as [[_ ->]|[_ [(Hs & payload & -> & _)|[(Hs & st & msg & Hf & Hst)
         |[(_ & _ & req & _ & _ & ->)|[(_ & _ & id & cur & req & _ & _ & _ & _ & ->)
         |(_ & _ & id & wk & _ & _ & ->)]]]]]].
  - split; [intros H; discriminate H | reflexivity].
  - cbn [fst] in Hs |- *. rewrite Hs.
    split; [intros H; discriminate H | reflexivity].
  - rewrite Hs, Hf. cbn [WriteError WriteJSON status].
    split; [|reflexivity]. intros ->. unfold_statuses.
    destruct Hst as [H|[H|H]]; discriminate H.
  - split; [|intros H; exfalso; apply H; reflexivity].
    intros _. cbn [fst snd Create nextID body WriteJSON ID workouts].
    split; [reflexivity|]. eexists. split; [reflexivity|]. split; [reflexivity|].
    unfold Get. cbn [workouts]. apply lookup_insert_eq.
  - split; [intros H; discriminate H | reflexivity].
  - split; [intros H; discriminate H | reflexivity].
Qed.

(** ** Invariants of the served store *)

(** A property of the stored records that a create and an update establish
    for the record they write holds after any request. *)
Lemma serve_records (Q : Z -> Workout -> Prop) c s :
  (forall k wk, workouts s !! k = Some wk -> Q k wk) ->
  (forall req,
     candidateOK (TrimSpace (cTitle req)) (TrimSpace (cDate req)) (cExercises req) ->
     Q (nextID s) (fst (Create (callNow c) (candidateOf req) s))) ->
  (forall id cur req, workouts s !! id = Some cur ->
     candidateOK (Title (mergePatch cur req)) (Date (mergePatch cur req))
                 (Exercises (mergePatch cur req)) ->
     Q id (withUpdatedAt (callNow c) (mergePatch cur req))) ->
  forall k wk, workouts (snd (serve c s)) !! k = Some wk -> Q k wk.
Proof.
  intros Hold Hnew Hupd.
  destruct (serve_ends c s)
    as [[_ ->]|[_ [(-> & _)|[(-> & _)
         |[(_ & _ & req & _ & Hok & ->)|[(_ & _ & id & cur & req & _ & _ & Hg & Hok & ->)
         |(_ & _ & id & wk' & _ & _ & ->)]]]]]]; try exact Hold.
  - cbn [snd Create workouts ID]. intros k wk. rewrite lookup_insert.
    case_decide; [|apply Hold]. subst k. intros [= <-]. apply (Hnew req Hok).
  - cbn [snd workouts]. intros k wk. rewrite lookup_insert.
    case_decide; [|apply Hold]. subst k. intros [= <-]. apply (Hupd id cur req Hg Hok).
  - cbn [snd workouts]. intros k wk. rewrite lookup_delete.
    case_decide; [discriminate | apply Hold].
Qed.

Lemma serveAll_storeKeyed cs s : storeKeyed s -> storeKeyed (serveAll cs s).
Proof.
  revert s. induction cs as [|c cs IH]; intros s Hs; cbn [serveAll]; [exact Hs|].
  apply IH. unfold storeKeyed. apply (serve_records (fun k wk => ID wk = k)).
  - exact Hs.
  - intros req _. reflexivity.
  - intros id cur req Hl _. cbn [withUpdatedAt ID].
    destruct (mergePatch_fields cur req) as (-> & _). exact (Hs _ _ Hl).
Qed.

Lemma NewWorkoutStore_storeKeyed : storeKeyed NewWorkoutStore.
Proof. intros k wk H. cbn in H. rewrite lookup_empty in H. discriminate. Qed.

(** X9. In every store reached through the handlers each record sits
    under its own ID: a lookup by ID returns a record carrying that ID, the
    records [List] returns have pairwise distinct IDs, and looking up the
    ID of a listed record finds that record. *)
Theorem served_ids_match (cs : list Call) :
  let s := serveAll cs NewWorkoutStore in
  (forall k wk, Get k s = Some wk -> ID wk = k)
  /\ NoDup (ID <$> List_ s)
  /\ (forall w, w ∈ List_ s -> Get (ID w) s = Some w).
Proof.
  intros s.
  assert (Hk : storeKeyed s) by apply serveAll_storeKeyed, NewWorkoutStore_storeKeyed.
  split; [exact Hk|]. unfold List_, Get. split.
  - rewrite <- list_fmap_compose.
    replace ((ID ∘ snd) <$> map_to_list (workouts s))
      with (fst <$> map_to_list (workouts s)); [apply NoDup_fst_map_to_list|].
    apply Forall_fmap_ext, Forall_forall. intros [k w] Hin. cbn.
    apply elem_of_map_to_list in Hin. symmetry. exact (Hk _ _ Hin).
  - intros w Hin. apply list_elem_of_fmap in Hin. destruct Hin as [[k w'] [-> Hin]].
    apply elem_of_map_to_list in Hin. cbn. rewrite (Hk _ _ Hin). exact Hin.
Qed.

Lemma serve_storeTimes t c s :
  storeTimes t s -> t <= callNow c -> storeTimes (callNow c) (snd (serve c s)).
Proof.
  intros Hs Ht. unfold storeTimes.
  apply (serve_records (fun _ wk => CreatedAt wk <= UpdatedAt wk /\ UpdatedAt wk <= callNow c)).
  - intros k wk Hl. destruct (Hs _ _ Hl). lia.
  - intros req _. cbn [Create fst CreatedAt UpdatedAt]. lia.
  - intros id cur req Hl _. cbn [withUpdatedAt CreatedAt UpdatedAt].
    destruct (mergePatch_fields cur req) as (_ & -> & _).
    destruct (Hs _ _ Hl). lia.
Qed.

Lemma serveAll_storeTimes t cs s :
  storeTimes t s -> clockFrom t cs -> storeTimes (lastNow t cs) (serveAll cs s).
Proof.
  revert t s. induction cs as [|c cs IH]; intros t s Hs Hc; cbn [serveAll lastNow].
  - exact Hs.
  - destruct Hc as [Ht Hc]. apply IH; [|exact Hc]. apply (serve_storeTimes t); assumption.
Qed.

(** X10. When the clock never goes back from one request to the next,
    every stored record was created no later than it was last updated, and
    last updated no later than the latest request. *)
Theorem stored_times_ordered (t0 : Time) (cs : list Call) :
  clockFrom t0 cs ->
  forall k wk, Get k (serveAll cs NewWorkoutStore) = Some wk ->
    CreatedAt wk <= UpdatedAt wk /\ UpdatedAt wk <= lastNow t0 cs.
Proof.
  intros Hc. apply (serveAll_storeTimes t0 cs NewWorkoutStore); [|exact Hc].
  intros k wk H. cbn in H. rewrite lookup_empty in H. discriminate.
Qed.

Lemma TrimSpace_fixed_ends t :
  TrimSpace t = t -> headKept isSpace t /\ headKept isSpace (rev t).
Proof.
  intros Ht. split.
  - rewrite <- Ht. apply TrimRightFunc_headKept, TrimLeftFunc_headKept.
  - rewrite <- Ht at 1. unfold TrimSpace, TrimFunc, TrimRightFunc.
    rewrite rev_involutive. apply TrimLeftFunc_headKept.
Qed.

Lemma parseDate_shape d y m dd :
  parseDate d = Some (y, m, dd) ->
  length d = 10%nat /\ 1 <= m <= 12 /\ 1 <= dd <= 31.
Proof.
  unfold parseDate, getyear, getnum2, skipDash.
  destruct d as [|c0 [|c1 [|c2 [|c3 [|c4 [|c5 [|c6 [|c7 [|c8 [|c9 rest]]]]]]]]]];
    try discriminate;
    repeat (match goal with
            | |- context [if ?b then _ else _] => destruct b eqn:?; try discriminate
            end).
  destruct rest; [|discriminate].
  intros [= <- <- <-].
  repeat match goal with
         | H : (_ || _) = false |- _ => apply orb_false_elim in H; destruct H
         end.
  split; [reflexivity|].
  assert (Hdays : daysIn (digitVal c5 * 10 + digitVal c6)
            (((digitVal c0 * 10 + digitVal c1) * 10 + digitVal c2) * 10 + digitVal c3) <= 31).
  { unfold daysIn. repeat (match goal with
            | |- context [if ?b then _ else _] => destruct b
            end); lia. }
  lia.
Qed.

(** X11. Every record in a store reached through the handlers is well
    formed: its title is not empty and neither starts nor ends with white
    space, its date is ten characters that read as a calendar date with a
    month from 1 to 12 and a day from 1 to 31, and each of its exercises
    has a non-blank name and at least one set, every set with positive
    reps and no negative weight. *)
Theorem stored_records_wellformed (cs : list Call) (k : Z) (wk : Workout) :
  Get k (serveAll cs NewWorkoutStore) = Some wk ->
  Title wk <> []
  /\ headKept isSpace (Title wk) /\ headKept isSpace (rev (Title wk))
  /\ length (Date wk) = 10%nat
  /\ (exists y m d, parseDate (Date wk) = Some (y, m, d)
        /\ 1 <= m <= 12 /\ 1 <= d <= 31)
  /\ Forall exerciseOK (Exercises wk).
Proof.
  intros Hg.
  destruct (serveAll_storeValid (fun _ => True) cs NewWorkoutStore
              (NewWorkoutStore_storeValid _)) with (k := k) (wk := wk)
    as [(Htt & Hdt & Ht & Hd & Hp & Hv) _].
  { apply Forall_forall. intros; exact I. }
  { exact Hg. }
  destruct (TrimSpace_fixed_ends _ Htt) as [Hh Hl].
  destruct (parseDate (Date wk)) as [[[y m] d]|] eqn:Hpd; [|congruence].
  destruct (parseDate_shape _ _ _ _ Hpd) as (Hlen & Hm & Hdd).
  repeat split; try assumption; try lia.
  - exists y, m, d. repeat split; try reflexivity; lia.
  - apply validateExercises_accepts. exact Hv.
Qed.

(** ** Headers *)


(** ** What a write needs to succeed *)

(** X13. A POST creates a record (201) exactly when its body decodes, the
    trimmed title is not empty, the trimmed date is not empty and reads as
    a calendar date, and the exercises pass validation; an undecodable
    body is answered "Invalid JSON" and a blank title "title is required"
    whatever the other fields hold; every POST that does not create is a
    400 and leaves the store as it was. *)
Theorem create_accepts_iff now w r s :
  Method r = lit "POST" ->
  let res := WorkoutsHandler_ServeHTTP now w r s in
  (status (fst res) = StatusCreated <->
     exists req, ReadJSON_create r = Some req
       /\ candidateOK (TrimSpace (cTitle req)) (TrimSpace (cDate req)) (cExercises req))
  /\ (status (fst res) <> StatusCreated ->
      status (fst res) = StatusBadRequest /\ snd res = s)
  /\ (ReadJSON_create r = None ->
      body (fst res) = JSONError (lit "Invalid JSON"))
  /\ (forall req, ReadJSON_create r = Some req -> TrimSpace (cTitle req) = [] ->
      body (fst res) = JSONError (lit "title is required")).
Proof.
  intros Hm res. subst res.
  destruct (ReadJSON_create r) as [req|] eqn:Hj.
  - destruct (post_success now w r s req Hm Hj) as [[Hok Hres]|(Hbad & Hst & _ & Hs)].
    + rewrite Hres. cbn [fst snd status WriteJSON]. split; [|split; [|split]].
      * split; [intros _; exists req; split; [reflexivity | exact Hok] | reflexivity].
      * intros H. exfalso. apply H. reflexivity.
      * discriminate.
      * intros req' [= <-] Ht. destruct Hok as (Hne & _). contradiction.
    + split; [|split; [|split]].
      * rewrite Hst. split; [discriminate|].
        intros (req' & [= <-] & Hok). contradiction.
      * intros _. split; assumption.
      * discriminate.
      * intros req' [= <-] Ht.
        destruct (post_result now w r s req Hm Hj) as (R1 & _). rewrite (R1 Ht). reflexivity.
  - unfold WorkoutsHandler_ServeHTTP. rewrite Hm, Hj.
    change (streq (lit "POST") (lit "GET")) with false.
    change (streq (lit "POST") (lit "POST")) with true.
    cbn [fst snd status body WriteError WriteJSON].
    split; [|split; [|split]].
    + split; [discriminate | intros (req & Hreq & _); discriminate].
    + intros _. split; reflexivity.
    + reflexivity.
    + discriminate.
Qed.

(** X14. A PUT on a well-formed path updates (200) exactly when its body
    decodes, the ID is present and the merged candidate passes validation.
    It never creates: for a missing ID it answers 404 "Workout not found"
    and leaves the store as it was, whatever the patch holds; an
    undecodable body is answered 400 "Invalid JSON" before the ID is looked
    up, also for a missing ID. *)
Theorem update_accepts_iff now w r s id :
  Method r = lit "PUT" -> parseWorkoutID (URLPath r) = Some id ->
  let res := WorkoutByIDHandler_ServeHTTP now w r s in
  (status (fst res) = StatusOK <->
     exists req cur, ReadJSON_update r = Some req /\ Get id s = Some cur
       /\ candidateOK (Title (mergePatch cur req)) (Date (mergePatch cur req))
                      (Exercises (mergePatch cur req)))
  /\ (ReadJSON_update r = None ->
      res = (WriteError w StatusBadRequest (lit "Invalid JSON"), s))
  /\ (forall req, ReadJSON_update r = Some req -> Get id s = None ->
      res = (WriteError w StatusNotFound (lit "Workout not found"), s)).
Proof.
  intros Hm Hp res. subst res.
  destruct (ReadJSON_update r) as [req|] eqn:Hj.
  - destruct (Get id s) as [cur|] eqn:Hg.
    + destruct (put_success now w r s id cur req Hm Hp Hj Hg)
        as [[Hok Hres]|(Hbad & Hst & _ & Hs)].
      * rewrite Hres. cbn [fst status WriteJSON]. split; [|split].
        -- split; [|reflexivity]. intros _. exists req, cur.
           split; [reflexivity|]. split; [reflexivity | exact Hok].
        -- discriminate.
        -- intros req' _ H. discriminate H.
      * split; [|split].
        -- rewrite Hst. split; [discriminate|].
           intros (req' & cur' & [= <-] & [= <-] & Hok). contradiction.
        -- discriminate.
        -- intros req' _ H. discriminate H.
    + unfold WorkoutByIDHandler_ServeHTTP. rewrite Hp, Hm, Hj, Hg.
      change (streq (lit "PUT") (lit "GET")) with false.
      change (streq (lit "PUT") (lit "PUT")) with true.
      cbn [fst status WriteError WriteJSON]. split; [|split].
      * split; [discriminate | intros (req' & cur' & _ & H & _); discriminate H].
      * discriminate.
      * intros; reflexivity.
  - unfold WorkoutByIDHandler_ServeHTTP. rewrite Hp, Hm, Hj.
    change (streq (lit "PUT") (lit "GET")) with false.
    change (streq (lit "PUT") (lit "PUT")) with true.
    cbn [fst status WriteError WriteJSON]. split; [|split].
    + split; [discriminate | intros (req' & cur' & H & _); discriminate H].
    + intros; reflexivity.
    + discriminate.
Qed.

(** X15. A DELETE on a well-formed path answers 204 without a body when
    the ID is present and 404 "Workout not found" when it is missing; in
    both cases the ID is absent afterwards and every other record is as it
    was, so a GET or a second DELETE of the same ID is then answered 404. *)
Theorem delete_then_gone now w r s id :
  Method r = lit "DELETE" -> parseWorkoutID (URLPath r) = Some id ->
  let res := WorkoutByIDHandler_ServeHTTP now w r s in
  (forall wk, Get id s = Some wk -> fst res = WriteHeader StatusNoContent w)
  /\ (Get id s = None ->
      res = (WriteError w StatusNotFound (lit "Workout not found"), s))
  /\ Get id (snd res) = None
  /\ (forall k, k <> id -> Get k (snd res) = Get k s)
  /\ (forall now' w' r',
        parseWorkoutID (URLPath r') = Some id ->
        Method r' = lit "GET" \/ Method r' = lit "DELETE" ->
        WorkoutByIDHandler_ServeHTTP now' w' r' (snd res)
          = (WriteError w' StatusNotFound (lit "Workout not found"), snd res)).
Proof.
  intros Hm Hp res.
  assert (Hres : res = match workouts s !! id with
                       | Some _ => (WriteHeader StatusNoContent w,
                                    {| nextID := nextID s;
                                       workouts := delete id (workouts s) |})
                       | None => (WriteError w StatusNotFound (lit "Workout not found"), s)
                       end).
  { subst res. unfold WorkoutByIDHandler_ServeHTTP, Delete. rewrite Hp, Hm.
    change (streq (lit "DELETE") (lit "GET")) with false.
    change (streq (lit "DELETE") (lit "PUT")) with false.
    change (streq (lit "DELETE") (lit "DELETE")) with true.
    cbv iota. destruct (workouts s !! id); reflexivity. }
  assert (Hgone : Get id (snd res) = None).
  { rewrite Hres. unfold Get. destruct (workouts s !! id) eqn:Hl; cbn [snd workouts];
      [apply lookup_delete_eq | exact Hl]. }
  split; [|split; [|split; [exact Hgone|split]]].
  - intros wk Hg. rewrite Hres. unfold Get in Hg. rewrite Hg. reflexivity.
  - intros Hg. rewrite Hres. unfold Get in Hg. rewrite Hg. reflexivity.
  - intros k Hk. rewrite Hres. unfold Get.
    destruct (workouts s !! id); cbn [snd workouts]; [|reflexivity].
    apply lookup_delete_ne. congruence.
  - intros now' w' r' Hp' Hm'. unfold WorkoutByIDHandler_ServeHTTP, Delete.
    rewrite Hp'. unfold Get in Hgone.
    destruct Hm' as [-> | ->].
    + change (streq (lit "GET") (lit "GET")) with true. cbv iota.
      unfold Get. rewrite Hgone. reflexivity.
    + change (streq (lit "DELETE") (lit "GET")) with false.
      change (streq (lit "DELETE") (lit "PUT")) with false.
      change (streq (lit "DELETE") (lit "DELETE")) with true.
      cbv iota. rewrite Hgone. reflexivity.
Qed.

(** ** Paths and IDs *)

Lemma lit_String c s : lit (String c s) = Z.of_N (N_of_ascii c) :: lit s.
Proof. reflexivity. Qed.

Lemma lit_EmptyString : lit EmptyString = [].
Proof. reflexivity. Qed.

Lemma digitsVal_step acc c s :
  isDigit c = true -> digitsVal acc (c :: s) = digitsVal (acc * 10 + digitVal c) s.
Proof. intros H. cbn [digitsVal]. rewrite H. reflexivity. Qed.

Ltac uint_digit :=
  cbn [NilEmpty.string_of_uint]; rewrite lit_String;
  rewrite digitsVal_step by reflexivity.

Lemma digitsVal_uint_acc d acc :
  digitsVal (Z.pos acc) (lit (NilEmpty.string_of_uint d))
    = Some (Z.pos (Pos.of_uint_acc d acc)).
Proof.
  revert acc. induction d; intros acc; [reflexivity | ..];
    uint_digit; cbn [Pos.of_uint_acc];
    match goal with
    | |- digitsVal ?a _ = Some (Z.pos (Pos.of_uint_acc _ ?b)) =>
        replace a with (Z.pos b) by (unfold digitVal; cbn; lia)
    end; apply IHd.
Qed.

Lemma digitsVal_uint d :
  digitsVal 0 (lit (NilEmpty.string_of_uint d)) = Some (Z.of_N (Pos.of_uint d)).
Proof.
  induction d; [reflexivity | ..]; uint_digit; cbn [Pos.of_uint];
    [exact IHd | ..];
    match goal with
    | |- digitsVal ?a _ = Some (Z.of_N (N.pos (Pos.of_uint_acc _ ?b))) =>
        change a with (Z.pos b)
    end; apply digitsVal_uint_acc.
Qed.

Lemma uint_all_digits d :
  Forall (fun c => isDigit c = true) (lit (NilEmpty.string_of_uint d)).
Proof.
  induction d; cbn [NilEmpty.string_of_uint]; rewrite ?lit_String;
    constructor; solve [reflexivity | assumption].
Qed.

(** The decimal digits [Itoa] prints for a natural number: never empty,
    digits only, and read back by [digitsVal] as the number. *)
Lemma uint_string n :
  let ds := lit (NilZero.string_of_uint (N.to_uint n)) in
  ds <> [] /\ Forall (fun c => isDigit c = true) ds
  /\ digitsVal 0 ds = Some (Z.of_N n).
Proof.
  intros ds. subst ds.
  pose proof (DecimalN.Unsigned.of_to n) as Hn. unfold N.of_uint in Hn.
  destruct (N.to_uint n) as [|d|d|d|d|d|d|d|d|d|d] eqn:Hd;
    cbn [NilZero.string_of_uint].
  { cbn in Hn. subst n. repeat split; [discriminate | repeat constructor]. }
  all: split; [cbn [NilEmpty.string_of_uint]; rewrite lit_String; discriminate|].
  all: split; [apply uint_all_digits|].
  all: rewrite digitsVal_uint, Hn; reflexivity.
Qed.

Lemma Atoi_Itoa n : minInt <= n <= maxInt -> Atoi (Itoa n) = Some n.
Proof.
  intros Hn. unfold Itoa.
  destruct (uint_string (Z.abs_N n)) as (Hne & Hdig & Hval).
  set (ds := lit (NilZero.string_of_uint (N.to_uint (Z.abs_N n)))) in *.
  destruct (Z.ltb_spec n 0) as [Hneg|Hpos].
  - change (lit "-" ++ ds) with (45 :: ds). unfold Atoi.
    change (45 =? 45) with true. cbv iota.
    destruct ds as [|c ds']; [contradiction|]. rewrite Hval.
    replace (- Z.of_N (Z.abs_N n)) with n by lia.
    destruct (Z.leb_spec minInt n); [|lia]. destruct (Z.leb_spec n maxInt); [|lia].
    reflexivity.
  - destruct ds as [|c ds'] eqn:Eds; [contradiction|].
    inversion Hdig as [|? ? Hc _]; subst. unfold Atoi.
    assert ((c =? 45) = false) as -> by (unfold isDigit in Hc; lia).
    assert ((c =? 43) = false) as -> by (unfold isDigit in Hc; lia).
    rewrite Hval. replace (Z.of_N (Z.abs_N n)) with n by lia.
    destruct (Z.leb_spec minInt n); [|lia]. destruct (Z.leb_spec n maxInt); [|lia].
    reflexivity.
Qed.

Lemma Atoi_range s v : Atoi s = Some v -> minInt <= v <= maxInt.
Proof.
  unfold Atoi.
  destruct (match s with
            | [] => (false, [])
            | c :: rest => if c =? 45 then (true, rest)
                           else if c =? 43 then (false, rest) else (false, s)
            end) as [neg ds].
  destruct ds as [|c ds]; [discriminate|].
  destruct (digitsVal 0 (c :: ds)) as [n|]; [|discriminate].
  destruct (Z.leb_spec minInt (if neg then - n else n)); [|discriminate].
  destruct (Z.leb_spec (if neg then - n else n) maxInt); [|discriminate].
  intros [= <-]. lia.
Qed.

Lemma SplitSlash_segment a b :
  Forall (fun c => (c =? 47) = false) a ->
  SplitSlash (a ++ 47 :: b) = a :: SplitSlash b.
Proof.
  induction 1 as [|c a Hc _ IH]; [reflexivity|].
  cbn [app SplitSlash]. rewrite Hc, IH. reflexivity.
Qed.

Lemma SplitSlash_last a :
  Forall (fun c => (c =? 47) = false) a -> SplitSlash a = [a].
Proof.
  induction 1 as [|c a Hc _ IH]; [reflexivity|].
  cbn [SplitSlash]. rewrite Hc, IH. reflexivity.
Qed.

Lemma digit_not_slash c : isDigit c = true -> (c =? 47) = false.
Proof. unfold isDigit. lia. Qed.

Lemma parseWorkoutID_range path id :
  parseWorkoutID path = Some id -> 0 < id <= maxInt.
Proof.
  unfold parseWorkoutID.
  destruct (SplitSlash (TrimSlash path)) as [|p0 [|p1 [|p2 rest]]]; try discriminate.
  destruct (negb (streq p0 (lit "workouts"))); [discriminate|].
  destruct (Atoi p1) as [v|] eqn:Ha; [|discriminate].
  destruct (Z.leb_spec v 0); [discriminate|].
  intros [= <-]. apply Atoi_range in Ha. lia.
Qed.

Lemma parseWorkoutID_Itoa id :
  0 < id <= maxInt -> parseWorkoutID (lit "/workouts/" ++ Itoa id) = Some id.
Proof.
  intros Hid.
  assert (Hat : Atoi (Itoa id) = Some id)
    by (apply Atoi_Itoa; unfold minInt, maxInt in *; lia).
  assert (Hds : Itoa id <> [] /\ Forall (fun c => isDigit c = true) (Itoa id)).
  { unfold Itoa. destruct (Z.ltb_spec id 0); [lia|].
    destruct (uint_string (Z.abs_N id)) as (H1 & H2 & _). split; assumption. }
  destruct Hds as [Hne Hdig]. set (ds := Itoa id) in *.
  assert (Hns : Forall (fun c => (c =? 47) = false) ds).
  { eapply Forall_impl; [exact Hdig|]. intros c. apply digit_not_slash. }
  unfold parseWorkoutID.
  assert (Htrim : TrimSlash (lit "/workouts/" ++ ds) = lit "workouts" ++ 47 :: ds).
  { unfold TrimSlash, TrimFunc.
    change (TrimLeftFunc (fun c => c =? 47) (lit "/workouts/" ++ ds))
      with (lit "workouts" ++ 47 :: ds).
    unfold TrimRightFunc. rewrite TrimLeftFunc_fixed; [apply rev_involutive|].
    rewrite rev_app_distr. cbn [rev].
    destruct (rev ds) as [|c t] eqn:Er.
    { apply (f_equal (@rev Z)) in Er. rewrite rev_involutive in Er. contradiction. }
    cbn. rewrite Forall_forall in Hns. apply Hns.
    apply list_elem_of_In, in_rev. rewrite <- list_elem_of_In.
    rewrite Er. left. }
  rewrite Htrim, SplitSlash_segment, SplitSlash_last by
    (try exact Hns; repeat constructor).
  change (negb (streq (lit "workouts") (lit "workouts"))) with false. cbv iota.
  rewrite Hat. destruct (Z.leb_spec id 0); [lia | reflexivity].
Qed.

(** X16. The IDs a path can address are exactly the positive [int]s:
    whatever [parseWorkoutID] accepts is an ID between 1 and the largest
    [int], and for every such ID the path "/workouts/" followed by its
    decimal form is read back as that ID. *)
Theorem parseWorkoutID_ids :
  (forall path id, parseWorkoutID path = Some id -> 0 < id <= maxInt)
  /\ (forall id, 0 < id <= maxInt ->
        parseWorkoutID (lit "/workouts/" ++ Itoa id) = Some id).
Proof.
  split.
  - intros path id Hp. exact (parseWorkoutID_range path id Hp).
  - intros id Hid. exact (parseWorkoutID_Itoa id Hid).
Qed.

(** ** Fresh IDs behind the handlers *)

Lemma serve_keysBelow c s :
  keysBelow s -> 1 <= nextID s < maxInt ->
  keysBelow (snd (serve c s))
  /\ nextID s <= nextID (snd (serve c s)) <= nextID s + 1.
Proof.
  intros Hk Hn.
  destruct (serve_ends c s)
    as [[_ ->]|[_ [(-> & _)|[(-> & _)
         |[(_ & _ & req & _ & _ & ->)|[(_ & _ & id & cur & req & _ & _ & Hg & _ & ->)
         |(_ & _ & id & wk' & _ & _ & ->)]]]]]];
    cbn [snd Create nextID workouts ID]; try (split; [exact Hk | lia]).
  - rewrite wrapInt_in_range by (unfold minInt, maxInt in *; lia).
    split; [|lia]. intros k wk. cbn [workouts nextID]. rewrite lookup_insert.
    case_decide; [intros _; lia | intros Hl; apply Hk in Hl; lia].
  - split; [|lia]. intros k wk. cbn [workouts nextID]. rewrite lookup_insert.
    case_decide; [subst k; intros _; exact (Hk _ _ Hg) | apply Hk].
  - split; [|lia]. intros k wk. cbn [workouts nextID]. rewrite lookup_delete.
    case_decide; [discriminate | apply Hk].
Qed.

Lemma serveAll_keysBelow cs s :
  keysBelow s -> 1 <= nextID s -> nextID s + Z.of_nat (length cs) <= maxInt ->
  keysBelow (serveAll cs s)
  /\ 1 <= nextID (serveAll cs s) <= nextID s + Z.of_nat (length cs).
Proof.
  revert s. induction cs as [|c cs IH]; intros s Hk Hlo Hhi; cbn [serveAll].
  - split; [exact Hk | cbn; lia].
  - cbn [length] in Hhi.
    destruct (serve_keysBelow c s Hk) as [Hk' Hn']; [lia|].
    destruct (IH _ Hk') as [IH1 IH2]; [lia | lia |].
    split; [exact IH1 | cbn [length]; lia].
Qed.

(** X17. After fewer requests than there are [int]s, a record a POST has
    just created (201) carries a positive ID, and a GET on "/workouts/"
    followed by that ID in decimal returns 200 with exactly the record the
    POST returned, leaving the store as it is. *)
Theorem create_then_fetch (cs : list Call) (c : Call) :
  Z.of_nat (length cs) < maxInt ->
  let res := serve c (serveAll cs NewWorkoutStore) in
  status (fst res) = StatusCreated ->
  exists rec,
    body (fst res) = JSONWorkout rec /\ 0 < ID rec
    /\ forall now' w',
         WorkoutByIDHandler_ServeHTTP now' w'
           (bareRequest (lit "GET") (lit "/workouts/" ++ Itoa (ID rec))) (snd res)
         = (WriteJSON w' StatusOK (JSONWorkout rec), snd res).
Proof.
  intros Hn res Hst. subst res.
  set (s := serveAll cs NewWorkoutStore) in *.
  destruct (serveAll_keysBelow cs NewWorkoutStore NewWorkoutStore_keysBelow)
    as [_ Hid]; cbn [nextID NewWorkoutStore]; try lia.
  fold s in Hid. cbn [nextID NewWorkoutStore] in Hid.
  destruct (serve_ends c s)
    as [[_ Hr]|[_ [(_ & payload & Hr & _)|[(_ & st & msg & Hr & Hs)
         |[(_ & _ & req & _ & _ & Hr)|[(_ & _ & id & cur & req & _ & _ & _ & _ & Hr)
         |(_ & _ & id & wk & _ & _ & Hr)]]]]]];
    rewrite Hr in Hst |- *; try discriminate Hst.
  { cbn [WriteError WriteJSON status] in Hst. unfold_statuses. subst st.
    destruct Hs as [H|[H|H]]; discriminate H. }
  eexists. split; [reflexivity|]. cbn [fst snd Create ID]. split; [lia|].
  intros now' w'. unfold WorkoutByIDHandler_ServeHTTP. cbn [bareRequest URLPath Method].
  rewrite parseWorkoutID_Itoa by lia. change (streq (lit "GET") (lit "GET")) with true. cbv iota.
  unfold Get. cbn [workouts]. rewrite lookup_insert_eq. reflexivity.
Qed.

(** X18. After fewer requests than there are [int]s, a POST that creates
    (201) takes an ID no stored record holds: every record present before
    is still there unchanged and the list of records is one longer. *)
Theorem post_keeps_existing (cs : list Call) (c : Call) :
  Z.of_nat (length cs) < maxInt ->
  let s := serveAll cs NewWorkoutStore in
  let res := serve c s in
  status (fst res) = StatusCreated ->
  (exists rec, body (fst res) = JSONWorkout rec /\ Get (ID rec) s = None)
  /\ (forall k wk, Get k s = Some wk -> Get k (snd res) = Some wk)
  /\ length (List_ (snd res)) = S (length (List_ s)).
Proof.
  intros Hn s res Hst. subst res.
  destruct (serveAll_keysBelow cs NewWorkoutStore NewWorkoutStore_keysBelow)
    as [Hk Hid]; cbn [nextID NewWorkoutStore]; try lia.
  fold s in Hk, Hid.
  assert (Hfresh : workouts s !! nextID s = None).
  { destruct (workouts s !! nextID s) as [wk|] eqn:Hl; [|reflexivity].
    apply Hk in Hl. lia. }
  destruct (serve_ends c s)
    as [[_ Hr]|[_ [(_ & payload & Hr & _)|[(_ & st & msg & Hr & Hs)
         |[(_ & _ & req & _ & _ & Hr)|[(_ & _ & id & cur & req & _ & _ & _ & _ & Hr)
         |(_ & _ & id & wk & _ & _ & Hr)]]]]]];
    rewrite Hr in Hst |- *; try discriminate Hst.
  { cbn [WriteError WriteJSON status] in Hst. unfold_statuses. subst st.
    destruct Hs as [H|[H|H]]; discriminate H. }
  unfold Get, List_. cbn [fst snd body WriteJSON Create ID workouts].
  split; [eexists; split; [reflexivity | exact Hfresh]|]. split.
  - intros k wk Hl. rewrite lookup_insert_ne; [exact Hl|].
    intros <-. rewrite Hfresh in Hl. discriminate.
  - rewrite !length_fmap, !length_map_to_list. apply map_size_insert_None, Hfresh.
Qed.

(** X19. A PUT that updates (200) changes the addressed record only:
    every other ID finds what it found before, no ID is added or removed,
    the list of records keeps its length and the ID counter stays. *)
Theorem update_touches_one_record now w r s id :
  Method r = lit "PUT" -> parseWorkoutID (URLPath r) = Some id ->
  let res := WorkoutByIDHandler_ServeHTTP now w r s in
  status (fst res) = StatusOK ->
  (forall k, k <> id -> Get k (snd res) = Get k s)
  /\ (forall k, Get k (snd res) = None <-> Get k s = None)
  /\ length (List_ (snd res)) = length (List_ s)
  /\ nextID (snd res) = nextID s.
Proof.
  intros Hm Hp res Hst. subst res.
  destruct (ReadJSON_update r) as [req|] eqn:Hj.
  2:{ unfold WorkoutByIDHandler_ServeHTTP in Hst. rewrite Hp, Hm, Hj in Hst.
      discriminate Hst. }
  destruct (Get id s) as [cur|] eqn:Hg.
  2:{ unfold WorkoutByIDHandler_ServeHTTP in Hst. rewrite Hp, Hm, Hj, Hg in Hst.
      discriminate Hst. }
  destruct (put_success now w r s id cur req Hm Hp Hj Hg)
    as [[_ Hres]|(_ & Hst' & _)]; [|rewrite Hst' in Hst; discriminate Hst].
  rewrite Hres. unfold Get, List_ in *. cbn [snd workouts nextID].
  split; [|split; [|split; [|reflexivity]]].
  - intros k Hk. apply lookup_insert_ne. congruence.
  - intros k. rewrite lookup_insert. case_decide; [subst k|tauto].
    rewrite Hg. split; discriminate.
  - rewrite !length_fmap, !length_map_to_list.
    apply map_size_insert_Some. eauto.
Qed.

(** ** More on validation *)

(** X20. [validateExercises] accepts a list exactly when every exercise
    has a name that is not blank and at least one set, and every set has
    positive reps and no negative weight; a rejection always carries a
    non-empty message. *)
Theorem validateExercises_accepts_iff (exs : list Exercise) :
  validateExercises exs = [] <->
  forall ex, ex ∈ exs ->
    TrimSpace (Name ex) <> [] /\ Sets ex <> []
    /\ forall st, st ∈ Sets ex -> 0 < Reps st /\ weightNegative (Weight st) = false.
Proof.
  rewrite validateExercises_accepts, Forall_forall. unfold exerciseOK, setOK.
  split.
  - intros H ex Hin. destruct (H ex Hin) as (Hn & Hs & Hall).
    repeat split; try assumption; rewrite Forall_forall in Hall; apply Hall; assumption.
  - intros H ex Hin. destruct (H ex Hin) as (Hn & Hs & Hall).
    repeat split; try assumption. apply Forall_forall. exact Hall.
Qed.

Lemma validateExercisesFrom_app_fail i exs more :
  validateExercisesFrom i exs <> [] ->
  validateExercisesFrom i (exs ++ more) = validateExercisesFrom i exs.
Proof.
  revert i. induction exs as [|ex exs IH]; intros i; cbn [app validateExercisesFrom].
  - intros H. contradiction.
  - destruct (streq (TrimSpace (Name ex)) []); [reflexivity|].
    destruct (Z.of_nat (length (Sets ex)) =? 0); [reflexivity|].
    destruct (validateSets (TrimSpace (Name ex)) 0 (Sets ex)); [reflexivity|].
    apply IH.
Qed.

Lemma validateExercisesFrom_app_pass i exs more :
  validateExercisesFrom i exs = [] ->
  validateExercisesFrom i (exs ++ more)
    = validateExercisesFrom (i + Z.of_nat (length exs)) more.
Proof.
  revert i. induction exs as [|ex exs IH]; intros i; cbn [app validateExercisesFrom length].
  - intros _. rewrite Z.add_0_r. reflexivity.
  - destruct (streq (TrimSpace (Name ex)) []).
    { intros H. exfalso. exact (lit_app_nonempty _ _ _ H). }
    destruct (Z.of_nat (length (Sets ex)) =? 0).
    { intros H. exfalso. exact (lit_app_nonempty _ _ _ H). }
    destruct (validateSets (TrimSpace (Name ex)) 0 (Sets ex)) as [msg|] eqn:Ev.
    { intros ->. exfalso. exact (validateSets_msg_nonempty _ _ _ _ Ev eq_refl). }
    intros H. rewrite (IH (i + 1) H). f_equal. lia.
Qed.

(** X21. Validation stops at the first failure: once a list is rejected,
    whatever is appended to it, valid or not, leaves the message as it is;
    and appending to an accepted list is accepted exactly when the appended
    exercises are. *)
Theorem validateExercises_append (exs more : list Exercise) :
  (validateExercises exs <> [] ->
     validateExercises (exs ++ more) = validateExercises exs)
  /\ (validateExercises exs = [] ->
      (validateExercises (exs ++ more) = [] <-> validateExercises more = [])).
Proof.
  split.
  - apply validateExercisesFrom_app_fail.
  - intros H. rewrite !validateExercises_accepts in *.
    rewrite Forall_app. tauto.
Qed.

(** ** Repeating an update *)

Lemma Workout_ext (a b : Workout) :
  ID a = ID b -> Title a = Title b -> Date a = Date b -> Notes a = Notes b ->
  Exercises a = Exercises b -> CreatedAt a = CreatedAt b ->
  UpdatedAt a = UpdatedAt b -> a = b.
Proof.
  destruct a, b. cbn [ID Title Date Notes Exercises CreatedAt UpdatedAt].
  intros -> -> -> -> -> -> ->. reflexivity.
Qed.

Lemma mergePatch_idempotent cur req :
  mergePatch (mergePatch cur req) req = mergePatch cur req.
Proof.
  destruct (mergePatch_fields (mergePatch cur req) req)
    as (Fi & Fc & Fu & Ft & Fd & Fn & Fe).
  destruct (mergePatch_fields cur req) as (Gi & Gc & Gu & Gt & Gd & Gn & Ge).
  apply Workout_ext.
  - exact Fi.
  - rewrite Ft, Gt. destruct (uTitle req); rewrite ?TrimSpace_idempotent; reflexivity.
  - rewrite Fd, Gd. destruct (uDate req); rewrite ?TrimSpace_idempotent; reflexivity.
  - rewrite Fn, Gn. destruct (uNotes req); reflexivity.
  - rewrite Fe, Ge. destruct (uExercises req); reflexivity.
  - exact Fc.
  - exact Fu.
Qed.

Lemma mergePatch_withUpdatedAt now cur req :
  mergePatch (withUpdatedAt now cur) req = withUpdatedAt now (mergePatch cur req).
Proof. destruct req as [[t'|] [d'|] [n'|] [e'|]]; reflexivity. Qed.

(** X22. A PUT is idempotent up to the time stamp: after a PUT that
    updated a record, the same patch sent again to the same ID is accepted
    again and returns and stores the same record, only updatedAt moved to
    the new clock reading. *)
Theorem update_twice now w r s id now2 w2 :
  Method r = lit "PUT" -> parseWorkoutID (URLPath r) = Some id ->
  let res := WorkoutByIDHandler_ServeHTTP now w r s in
  status (fst res) = StatusOK ->
  exists final,
    body (fst res) = JSONWorkout final
    /\ WorkoutByIDHandler_ServeHTTP now2 w2 r (snd res)
       = (WriteJSON w2 StatusOK (JSONWorkout (withUpdatedAt now2 final)),
          {| nextID := nextID s;
             workouts := <[id := withUpdatedAt now2 final]> (workouts s) |}).
Proof.
  intros Hm Hp res Hst. subst res.
  destruct (ReadJSON_update r) as [req|] eqn:Hj.
  2:{ unfold WorkoutByIDHandler_ServeHTTP in Hst. rewrite Hp, Hm, Hj in Hst.
      discriminate Hst. }
  destruct (Get id s) as [cur|] eqn:Hg.
  2:{ unfold WorkoutByIDHandler_ServeHTTP in Hst. rewrite Hp, Hm, Hj, Hg in Hst.
      discriminate Hst. }
  destruct (put_success now w r s id cur req Hm Hp Hj Hg)
    as [[Hok Hres]|(_ & Hst' & _)]; [|rewrite Hst' in Hst; discriminate Hst].
  rewrite Hres. cbn [fst snd body WriteJSON].
  exists (withUpdatedAt now (mergePatch cur req)). split; [reflexivity|].
  set (s1 := {| nextID := nextID s; workouts := _ |}).
  assert (Hg1 : Get id s1 = Some (withUpdatedAt now (mergePatch cur req))).
  { unfold Get. subst s1. cbn [workouts]. apply lookup_insert_eq. }
  destruct (put_result now2 w2 r s1 id _ req Hm Hp Hj Hg1) as (_ & _ & _ & _ & R5).
  rewrite mergePatch_withUpdatedAt, mergePatch_idempotent in R5.
  cbn [withUpdatedAt Title Date Exercises] in R5. rewrite (R5 Hok).
  subst s1. cbn [nextID workouts withUpdatedAt ID Title Date Notes Exercises CreatedAt].
  rewrite insert_insert_eq. reflexivity.
Qed.

(** ** The further properties at sample requests *)

Lemma Create_keeps_existing_witness :
  let s := snd (runOps createDeleteCreate NewWorkoutStore) in
  Get (nextID s) s = None
  /\ length (List_ (snd (Create 30 pushDayRecord s))) = S (length (List_ s)).
Proof.
  assert (Hn : Z.of_nat (countCreates createDeleteCreate) < maxInt)
    by (vm_compute; reflexivity).
  destruct (Create_keeps_existing createDeleteCreate 30 pushDayRecord Hn)
    as (H1 & _ & _ & H4).
  split; assumption.
Defined.

Lemma serve_error_keeps_store_witness :
  snd (serve blankDateCall pushDayStore) = pushDayStore.
Proof.
  apply (serve_error_keeps_store blankDateCall pushDayStore).
  vm_compute. discriminate.
Defined.

Lemma serve_read_keeps_store_witness :
  snd (serve listCall pushDayStore) = pushDayStore.
Proof.
  apply (serve_read_keeps_store listCall pushDayStore); vm_compute; discriminate.
Defined.

Lemma stored_times_ordered_witness :
  CreatedAt pushDayRecord <= UpdatedAt pushDayRecord
  /\ UpdatedAt pushDayRecord <= lastNow 0 pushDayCalls.
Proof.
  apply (stored_times_ordered 0 pushDayCalls) with (k := 1).
  - vm_compute. split; [discriminate | exact I].
  - vm_compute. reflexivity.
Defined.

Lemma stored_records_wellformed_witness :
  Title pushDayRecord <> [] /\ length (Date pushDayRecord) = 10%nat
  /\ Forall exerciseOK (Exercises pushDayRecord).
Proof.
  destruct (stored_records_wellformed pushDayCalls 1 pushDayRecord
              ltac:(vm_compute; reflexivity)) as (H1 & _ & _ & H4 & _ & H6).
  repeat split; assumption.
Defined.

Lemma create_accepts_iff_witness :
  let res := WorkoutsHandler_ServeHTTP 100 newResponseWriter (postRequest blankDate)
               NewWorkoutStore in
  status (fst res) = StatusBadRequest /\ snd res = NewWorkoutStore.
Proof.
  destruct (create_accepts_iff 100 newResponseWriter (postRequest blankDate)
              NewWorkoutStore eq_refl) as (_ & H & _).
  apply H. vm_compute. discriminate.
Defined.

Lemma update_accepts_iff_witness :
  WorkoutByIDHandler_ServeHTTP 200 newResponseWriter
    (putRequest (lit "/workouts/2") notesPatch) pushDayStore
  = (WriteError newResponseWriter StatusNotFound (lit "Workout not found"), pushDayStore).
Proof.
  destruct (update_accepts_iff 200 newResponseWriter
              (putRequest (lit "/workouts/2") notesPatch) pushDayStore 2
              eq_refl ltac:(vm_compute; reflexivity)) as (_ & _ & H).
  apply (H notesPatch); vm_compute; reflexivity.
Defined.

Lemma delete_then_gone_witness :
  let res := WorkoutByIDHandler_ServeHTTP 200 newResponseWriter
               (bareRequest (lit "DELETE") (lit "/workouts/1")) pushDayStore in
  status (fst res) = StatusNoContent /\ Get 1 (snd res) = None.
Proof.
  destruct (delete_then_gone 200 newResponseWriter
              (bareRequest (lit "DELETE") (lit "/workouts/1")) pushDayStore 1
              eq_refl ltac:(vm_compute; reflexivity)) as (H1 & _ & H3 & _).
  split; [|exact H3].
  rewrite (H1 pushDayRecord ltac:(vm_compute; reflexivity)). reflexivity.
Defined.

Lemma create_then_fetch_witness :
  exists rec,
    0 < ID rec
    /\ WorkoutByIDHandler_ServeHTTP 300 newResponseWriter
         (bareRequest (lit "GET") (lit "/workouts/" ++ Itoa (ID rec)))
         (snd (serve paddedSquatCall (serveAll pushDayCalls NewWorkoutStore)))
       = (WriteJSON newResponseWriter StatusOK (JSONWorkout rec),
          snd (serve paddedSquatCall (serveAll pushDayCalls NewWorkoutStore))).
Proof.
  destruct (create_then_fetch pushDayCalls paddedSquatCall
              ltac:(vm_compute; reflexivity) ltac:(vm_compute; reflexivity))
    as (rec & _ & Hpos & Hget).
  exists rec. split; [exact Hpos | apply Hget].
Defined.

Lemma post_keeps_existing_witness :
  Get 1 (snd (serve paddedSquatCall (serveAll pushDayCalls NewWorkoutStore)))
    = Some pushDayRecord.
Proof.
  destruct (post_keeps_existing pushDayCalls paddedSquatCall
              ltac:(vm_compute; reflexivity) ltac:(vm_compute; reflexivity))
    as (_ & H & _).
  apply H. vm_compute. reflexivity.
Defined.

Lemma update_touches_one_record_witness :
  let res := WorkoutByIDHandler_ServeHTTP 200 newResponseWriter
               (putRequest (lit "/workouts/1") notesPatch) pushDayStore in
  length (List_ (snd res)) = length (List_ pushDayStore)
  /\ nextID (snd res) = nextID pushDayStore.
Proof.
  destruct (update_touches_one_record 200 newResponseWriter
              (putRequest (lit "/workouts/1") notesPatch) pushDayStore 1
              eq_refl ltac:(vm_compute; reflexivity) ltac:(vm_compute; reflexivity))
    as (_ & _ & H3 & H4).
  split; assumption.
Defined.

Lemma update_twice_witness :
  exists final,
    status (fst (WorkoutByIDHandler_ServeHTTP 300 newResponseWriter
                   (putRequest (lit "/workouts/1") notesPatch)
                   (snd (WorkoutByIDHandler_ServeHTTP 200 newResponseWriter
                           (putRequest (lit "/workouts/1") notesPatch) pushDayStore))))
      = StatusOK
    /\ Notes final = lit "heavy".
Proof.
  destruct (update_twice 200 newResponseWriter
              (putRequest (lit "/workouts/1") notesPatch) pushDayStore 1
              300 newResponseWriter
              eq_refl ltac:(vm_compute; reflexivity) ltac:(vm_compute; reflexivity))
    as (final & Hb & Hsecond).
  exists final. split; [rewrite Hsecond; reflexivity|].
  vm_compute in Hb. injection Hb as <-. reflexivity.
Defined.

(** * The mobile client *)

Lemma filter_fixed {A} (p : A -> bool) (l : list A) :
  Forall (fun x => p x = true) l -> List.filter p l = l.
Proof.
  induction 1 as [|x l Hx _ IH]; [reflexivity|].
  cbn [List.filter]. rewrite Hx, IH. reflexivity.
Qed.

Lemma filter_all {A} (p : A -> bool) (l : list A) :
  Forall (fun x => p x = true) (List.filter p l).
Proof.
  induction l as [|x l IH]; cbn [List.filter]; [constructor|].
  destruct (p x) eqn:Hx; [constructor; assumption | exact IH].
Qed.

Lemma map_fixed {A} (g : A -> A) (l : list A) :
  Forall (fun x => g x = x) l -> map g l = l.
Proof.
  induction 1 as [|x l Hx _ IH]; [reflexivity|].
  cbn [map]. rewrite Hx, IH. reflexivity.
Qed.

Lemma truthy_true s : truthy s = true <-> s <> [].
Proof.
  unfold truthy. rewrite negb_true_iff. apply streq_false.
Qed.

Lemma length_pos_true {A} (l : list A) : (0 <? length l)%nat = true <-> l <> [].
Proof.
  destruct l; cbn; split; try discriminate; try reflexivity; intros H; contradiction.
Qed.

Lemma validExercises_kept exs : Forall keptExercise (validExercises exs).
Proof.
  unfold validExercises. apply Forall_forall. intros e He.
  apply list_elem_of_In, filter_In in He. destruct He as [He Hlen].
  apply in_map_iff in He. destruct He as (ex & <- & Hex).
  apply filter_In in Hex. destruct Hex as [_ Hname].
  cbn [jsName jsSets] in *. repeat split.
  - apply truthy_true, Hname.
  - apply length_pos_true, Hlen.
  - apply filter_all.
Qed.

Lemma validExercises_fixed exs :
  Forall keptExercise exs -> validExercises exs = exs.
Proof.
  intros H. unfold validExercises.
  rewrite (filter_fixed _ exs).
  2:{ eapply Forall_impl; [exact H|]. intros ex (Hn & _). apply truthy_true, Hn. }
  rewrite (map_fixed _ exs).
  2:{ eapply Forall_impl; [exact H|]. intros [n sets] (_ & _ & Hs).
      cbn [jsName jsSets] in *. unfold positiveSets. rewrite filter_fixed; [reflexivity|].
      exact Hs. }
  apply filter_fixed.
  eapply Forall_impl; [exact H|]. intros ex (_ & Hs & _). apply length_pos_true, Hs.
Qed.

Lemma filter_length_le {A} (p : A -> bool) (l : list A) :
  (length (List.filter p l) <= length l)%nat.
Proof.
  induction l as [|x l IH]; cbn [List.filter length]; [lia|].
  destruct (p x); cbn [length]; lia.
Qed.

(** X23. The exercises the form sends: every exercise [validExercises]
    keeps has a name that is not blank, at least one set, and only sets
    with reps > 0; a list of such exercises is kept as it is, so filtering
    twice is filtering once; and nothing is ever added. *)
Theorem validExercises_spec (exs : list JsExercise) :
  Forall keptExercise (validExercises exs)
  /\ (Forall keptExercise exs -> validExercises exs = exs)
  /\ validExercises (validExercises exs) = validExercises exs
  /\ (length (validExercises exs) <= length exs)%nat.
Proof.
  split; [apply validExercises_kept|]. split; [apply validExercises_fixed|]. split.
  - apply validExercises_fixed, validExercises_kept.
  - unfold validExercises.
    etransitivity; [apply filter_length_le|]. rewrite length_map.
    apply filter_length_le.
Qed.

Lemma filterNotIndex_length {A} (i index : nat) (l : list A) :
  (length l - 1 <= length (filterNotIndex i index l))%nat.
Proof.
  revert i. induction l as [|x l IH]; intros i; cbn [filterNotIndex length]; [lia|].
  destruct (Nat.eqb i index) eqn:E.
  - apply Nat.eqb_eq in E. subst.
    assert (H : forall (j : nat) (l' : list A), (index < j)%nat ->
                  filterNotIndex j index l' = l').
    { intros j l'. revert j. induction l' as [|y l' IH']; intros j Hj;
        cbn [filterNotIndex]; [reflexivity|].
      destruct (Nat.eqb_spec j index); [lia|]. rewrite IH' by lia. reflexivity. }
    rewrite H by lia. lia.
  - cbn [length]. specialize (IH (S i)). lia.
Qed.

Lemma filterNotIndex_nonempty {A} (index : nat) (l : list A) :
  (1 < length l)%nat -> filterNotIndex 0 index l <> [].
Proof.
  intros Hl Hnil. pose proof (filterNotIndex_length 0 index l) as H.
  rewrite Hnil in H. cbn [length] in H. lia.
Qed.

Lemma filterNotIndex_Forall {A} (P : A -> Prop) (i index : nat) (l : list A) :
  Forall P l -> Forall P (filterNotIndex i index l).
Proof.
  intros H. revert i. induction H as [|x l Hx _ IH]; intros i; cbn [filterNotIndex];
    [constructor|].
  destruct (Nat.eqb i index); [apply IH | constructor; [exact Hx | apply IH]].
Qed.

(** X24. The form always shows at least one exercise with at least one
    set: the empty form does, and adding an exercise, removing an exercise,
    adding a set and removing a set each keep it so; removing from a form
    with a single exercise, or from an exercise with a single set, changes
    nothing. *)
Theorem form_rows_kept (f : FormData) :
  (forall today, formRows (getEmptyForm today))
  /\ (formRows f ->
      formRows (addExercise f)
      /\ (forall index, formRows (removeExercise index f))
      /\ (forall i f', addSet i f = Some f' -> formRows f')
      /\ (forall i j f', removeSet i j f = Some f' -> formRows f'))
  /\ (forall index, length (fExercises f) = 1%nat -> removeExercise index f = f)
  /\ (forall i j ex, fExercises f !! i = Some ex -> length (jsSets ex) = 1%nat ->
        removeSet i j f = Some f).
Proof.
  split; [|split; [|split]].
  - intros today. split; [discriminate | repeat constructor; discriminate].
  - intros [Hne Hall]. split; [|split; [|split]].
    + unfold addExercise, formRows. cbn [setFormExercises fExercises]. split.
      * destruct (fExercises f); discriminate.
      * apply Forall_app. split; [exact Hall | repeat constructor; discriminate].
    + intros index. unfold removeExercise.
      destruct (Nat.leb_spec (length (fExercises f)) 1); [split; assumption|].
      unfold formRows. cbn [setFormExercises fExercises]. split.
      * apply filterNotIndex_nonempty. lia.
      * apply filterNotIndex_Forall, Hall.
    + intros i f'. unfold addSet.
      destruct (fExercises f !! i) as [ex|] eqn:Hl; [|discriminate].
      intros [= <-]. unfold formRows. cbn [setFormExercises fExercises]. split.
      * intros Hnil. apply (f_equal length) in Hnil. rewrite length_insert in Hnil.
        destruct (fExercises f); [contradiction | discriminate].
      * apply Forall_insert; [exact Hall|]. cbn [jsSets].
        destruct (jsSets ex); discriminate.
    + intros i j f'. unfold removeSet.
      destruct (fExercises f !! i) as [ex|] eqn:Hl; [|discriminate].
      destruct (Nat.leb_spec (length (jsSets ex)) 1).
      { intros [= <-]. split; assumption. }
      intros [= <-]. unfold formRows. cbn [setFormExercises fExercises]. split.
      * intros Hnil. apply (f_equal length) in Hnil. rewrite length_insert in Hnil.
        destruct (fExercises f); [contradiction | discriminate].
      * apply Forall_insert; [exact Hall|]. cbn [jsSets].
        apply filterNotIndex_nonempty. lia.
  - intros index Hlen. unfold removeExercise. rewrite Hlen. reflexivity.
  - intros i j ex Hl Hlen. unfold removeSet. rewrite Hl, Hlen. reflexivity.
Qed.
